(** * mlmachine.features.selection: the FeatureSelector class

    A shallow embedding of [src/mlmachine/features/selection.py] and the
    properties of its consensus table, its progressive-elimination sweep,
    its best-subset selection and its usage table.

    Conventions of the embedding.
    - Scores and ranks are float64 in the source; they are exact rationals
      ([Q]) here, compared with [Qle] and [Qeq].
    - A DataFrame is the list of its rows in row order; a row carries its
      index label.
    - numpy, pandas and scikit-learn are external: [np.arange], slicing,
      [pd.concat] and the DataFrame accessors are written out; the sort
      behind [DataFrame.sort_values] is an interface (class [Sorter]) and
      the cross-validation primitive a parameter (section [CrossVal]).
    - Printing, plotting and CSV output are not modelled. *)

From Stdlib Require Import String.
From Stdlib Require Import List ZArith QArith Bool Lia Permutation Sorted.
Import ListNotations.

Set Implicit Arguments.

Local Open Scope Z_scope.

(* ================================================================== *)
(** * Python and numpy primitives *)
(* ================================================================== *)

Module Py.

(** [np.arange(start, stop, step)] on integers: [ceil((stop-start)/step)]
    values [start + k*step]; numpy refuses [step = 0] ([None]). *)
Definition arange_len (start stop step : Z) : Z :=
  if 0 <? step then Z.max 0 ((stop - start + step - 1) / step)
  else Z.max 0 ((start - stop + (- step) - 1) / (- step)).

Definition arange (start stop step : Z) : option (list Z) :=
  if step =? 0 then None
  else Some (map (fun k => start + Z.of_nat k * step)
                 (seq 0 (Z.to_nat (arange_len start stop step)))).

(** [l[:stop]]: a negative [stop] counts from the end, and the bound is
    clipped to [0 .. len(l)]. *)
Definition slice_to {A} (stop : Z) (l : list A) : list A :=
  let len := Z.of_nat (length l) in
  let hi := if stop <? 0 then Z.max 0 (len + stop) else Z.min stop len in
  firstn (Z.to_nat hi) l.

(** [ndarray.mean()] of a one-dimensional array. *)
Definition Qsum (l : list Q) : Q := fold_right Qplus 0%Q l.

Definition mean (l : list Q) : Q := (Qsum l / inject_Z (Z.of_nat (length l)))%Q.

(** Row-wise [min] and [max] of a non-empty list of values. *)
Definition Qmin (a b : Q) : Q := if Qle_bool a b then a else b.
Definition Qmax (a b : Q) : Q := if Qle_bool a b then b else a.

Definition minimum (l : list Q) : Q :=
  match l with [] => 0%Q | x :: l' => fold_left Qmin l' x end.

Definition maximum (l : list Q) : Q :=
  match l with [] => 0%Q | x :: l' => fold_left Qmax l' x end.

(** [Series.unique()]: the distinct values in order of first appearance. *)
Fixpoint unique (l : list string) : list string :=
  match l with
  | [] => []
  | x :: l' => x :: filter (fun y => negb (String.eqb x y)) (unique l')
  end.

Definition mem (x : string) (l : list string) : bool :=
  existsb (String.eqb x) l.

End Py.

(* ================================================================== *)
(** * Sorting: the interface of [DataFrame.sort_values] *)
(* ================================================================== *)

(** [ordered by_ ascending x y]: row [x] may come before row [y]. *)
Definition ordered {A} (by_ : A -> Q) (ascending : bool) (x y : A) : Prop :=
  if ascending then (by_ x <= by_ y)%Q else (by_ y <= by_ x)%Q.

(** [df.sort_values(by, ascending)] on one column, as every call in the
    source is made: with pandas' default [kind='quicksort'].  The rows come
    back reordered and sorted on the column.  pandas documents 'mergesort'
    and 'stable' as the only stable kinds, so nothing more is promised
    about rows with equal keys. *)
Class Sorter : Type := {
  sort_values : forall A : Type, (A -> Q) -> bool -> list A -> list A;
  sort_values_perm :
    forall A (by_ : A -> Q) ascending (l : list A),
      Permutation l (sort_values by_ ascending l);
  sort_values_sorted :
    forall A (by_ : A -> Q) ascending (l : list A),
      Sorted (ordered by_ ascending) (sort_values by_ ascending l)
}.

(** A sort keeps ties when rows with equal keys come back in their input
    order, that is, when it is stable. *)
Definition keeps_ties (S : Sorter) : Prop :=
  forall (A : Type) (by_ : A -> Q) (ascending : bool) (l : list A) (k : Q),
    filter (fun x => Qeq_bool (by_ x) k) (sort_values by_ ascending l)
    = filter (fun x => Qeq_bool (by_ x) k) l.

(* ================================================================== *)
(** * Data model *)
(* ================================================================== *)

(** The DataFrame one ranking method returns: one row per feature name
    (the index), holding the values of the method's columns. *)
Definition rank_frame : Type := list (string * list Q).

Definition frame_index (fr : rank_frame) : list string := map fst fr.

(** The values of the row labelled [n]. *)
Definition frame_row (n : string) (fr : rank_frame) : list Q :=
  match find (fun r => String.eqb n (fst r)) fr with
  | Some r => snd r
  | None => []
  end.

(** A row of [resultsSummary]: the index label, the four inserted summary
    columns and the per-method columns. *)
Record summary_row : Type := {
  feature : string;
  average : Q;
  stdev : Q;
  low : Q;
  high : Q;
  methods : list Q
}.

Definition summary_frame : Type := list summary_row.

(** [df.index] and [df.shape[0]]. *)
Definition index (df : summary_frame) : list string := map feature df.
Definition shape0 {A} (df : list A) : Z := Z.of_nat (List.length df).

(** What [model_selection.cross_validate(..., return_train_score=True)]
    returns: the per-fold scores. *)
Record cv_scores : Type := {
  train_score : list Q;
  test_score : list Q
}.

(** A row of [cvSummary], in the column order of line 294. *)
Record cv_row : Type := {
  Estimator : string;
  Training_score : Q;
  Validation_score : Q;
  Scoring : string
}.

(** A DataFrame of [cv_row]s: each row with its index label. *)
Definition cv_frame : Type := list (Z * cv_row).

(** [df.loc[label] = row]: overwrite the rows carrying [label], or append
    a new row when there is none. *)
Definition loc_set {R} (df : list (Z * R)) (label : Z) (row : R) : list (Z * R) :=
  if existsb (fun p => fst p =? label) df
  then map (fun p => if fst p =? label then (label, row) else p) df
  else df ++ [(label, row)].

(** A cell of the usage table. *)
Inductive cell : Type :=
| NaN
| Str (s : string)
| Int (n : Z).

(** The usage table: the index, and the columns in insertion order, each
    aligned with the index. *)
Record usage_frame : Type := {
  u_index : list string;
  u_columns : list (string * list cell)
}.

(** [df[name] = column]: replace the column called [name], or append it. *)
Fixpoint set_column (cols : list (string * list cell)) (name : string)
    (column : list cell) : list (string * list cell) :=
  match cols with
  | [] => [(name, column)]
  | (n, c) :: cols' =>
      if String.eqb n name then (n, column) :: cols'
      else (n, c) :: set_column cols' name column
  end.

Definition get_column (cols : list (string * list cell)) (name : string)
    : option (list cell) :=
  option_map snd (find (fun p => String.eqb (fst p) name) cols).

(** Python exceptions: the three the modelled lines can raise themselves,
    and whatever the cross-validation primitive raises, by class name. *)
Inductive exn : Type :=
| IndexError          (* [values[0]] of an empty array *)
| ZeroDivisionError   (* [a / 0] *)
| ArangeError         (* [np.arange] refusing a zero step *)
| Raised (name : string).

Inductive result (A : Type) : Type :=
| Ok (a : A)
| Raise (e : exn).
Arguments Ok {A} a.
Arguments Raise {A} e.

(* ================================================================== *)
(** * featureSelectorSummary (lines 64-103) *)
(* ================================================================== *)

(** [pd.concat(objs, join="inner", axis=1)] for frames with unique labels:
    the labels of the first frame that every other frame has too, in the
    first frame's order, each with the columns of all frames side by side. *)
Definition concat_inner (objs : list rank_frame) : rank_frame :=
  match objs with
  | [] => []
  | first :: rest =>
      map (fun n => (n, flat_map (frame_row n) objs))
          (filter (fun n => forallb (fun fr => Py.mem n (frame_index fr)) rest)
                  (frame_index first))
  end.

(** The five frames of lines 76-83, as the ranking methods return them. *)
Record RankResults : Type := {
  resultsFScore : rank_frame;
  resultsVariance : rank_frame;
  resultsCorr : rank_frame;
  resultsRFE : rank_frame;
  resultsImportance : rank_frame
}.

Section Summary.
Context {S : Sorter}.

(** [DataFrame.std(axis=1)], the sample standard deviation of a row; it
    takes a square root, so it is left to the caller. *)
Variable std : list Q -> Q.

(** Lines 90-93.  Each [insert] computes over the columns to the right of
    the ones already inserted, that is over the per-method columns. *)
Definition add_stats (r : string * list Q) : summary_row :=
  {| feature := fst r;
     average := Py.mean (snd r);
     stdev := std (snd r);
     low := Py.minimum (snd r);
     high := Py.maximum (snd r);
     methods := snd r |}.

(** Line 86. *)
Definition results (r : RankResults) : list rank_frame :=
  [resultsFScore r; resultsVariance r; resultsCorr r; resultsRFE r;
   resultsImportance r].

(** Lines 86-95 and 103, from the five frames on ([save_to_csv] writes a
    file and is left out). *)
Definition featureSelectorSummary (r : RankResults) : summary_frame :=
  sort_values average true (map add_stats (concat_inner (results r))).

End Summary.

(* ================================================================== *)
(** * featureSelectorCrossVal (lines 260-342) *)
(* ================================================================== *)

Section CrossVal.
Context {S : Sorter}.

(** An estimator as the caller passes it; [estimator_name e] is
    [BasicModelBuilder(estimator=e).estimator.__name__].  BasicModelBuilder
    comes from [model/tune/bayesianOptimSearch.py], outside this file;
    lines 303-332 use it for the model it builds and for this name only. *)
Variable estimator : Type.
Variable estimator_name : estimator -> string.

(** [model_selection.cross_validate] on the model built for an
    estimator, the columns [self.data[top]], [cv=nFolds] and a metric:
    the per-fold scores, or the exception it raises. *)
Variable cross_validate : estimator -> list string -> Z -> string -> result cv_scores.

(** One call of [cross_validate]: estimator, columns, metric. *)
Definition cv_call : Type := (estimator * list string * string)%type.

(** The FeatureSelector object, and the calls of [cross_validate] made so
    far (oldest first). *)
Record state : Type := {
  self_estimators : list estimator;
  self_resultsSummary : summary_frame;
  self_cvSummary : cv_frame;
  cv_calls : list cv_call
}.

Definition M (A : Type) : Type := state -> state * result A.

Definition ret {A} (a : A) : M A := fun s => (s, Ok a).

Definition bind {A B} (m : M A) (k : A -> M B) : M B :=
  fun s => match m s with
           | (s', Ok a) => k a s'
           | (s', Raise e) => (s', Raise e)
           end.

Definition raise {A} (e : exn) : M A := fun s => (s, Raise e).

Definition gets {A} (f : state -> A) : M A := fun s => (s, Ok (f s)).

Definition set_cvSummary (cv : cv_frame) : M unit :=
  fun s => ({| self_estimators := self_estimators s;
               self_resultsSummary := self_resultsSummary s;
               self_cvSummary := cv;
               cv_calls := cv_calls s |}, Ok tt).

Notation "x <- m ;; k" := (bind m (fun x => k))
  (at level 61, m at next level, right associativity).
Notation "m ;;; k" := (bind m (fun _ => k))
  (at level 61, right associativity).

(** [for x in l: body], with the loop's local variables threaded as [acc]. *)
Fixpoint for_each {A B} (l : list A) (acc : B) (body : B -> A -> M B) : M B :=
  match l with
  | [] => ret acc
  | x :: l' => acc' <- body acc x ;; for_each l' acc' body
  end.

(** The call of line 318, recorded. *)
Definition call_cross_validate (e : estimator) (top : list string)
    (nFolds : Z) (metric : string) : M cv_scores :=
  fun s =>
    ({| self_estimators := self_estimators s;
        self_resultsSummary := self_resultsSummary s;
        self_cvSummary := self_cvSummary s;
        cv_calls := cv_calls s ++ [(e, top, metric)] |},
     cross_validate e top nFolds metric).

Definition np_arange (start stop step : Z) : M (list Z) :=
  match Py.arange start stop step with
  | Some l => ret l
  | None => raise ArangeError
  end.

(** Lines 312-317: the columns kept at index [i]. *)
Definition top_features (resultsSummary : summary_frame) (i : Z) : list string :=
  if i =? 0 then index (sort_values average true resultsSummary)
  else Py.slice_to (- i) (index (sort_values average true resultsSummary)).

(** Lines 312-333: one pass of the innermost loop. *)
Definition evaluate (resultsSummary : summary_frame) (e : estimator)
    (nFolds : Z) (metric : string) (acc : cv_frame * Z) (i : Z)
    : M (cv_frame * Z) :=
  let '(cv, rowIx) := acc in
  let top := top_features resultsSummary i in
  scores <- call_cross_validate e top nFolds metric ;;
  let training := Py.mean (train_score scores) in
  let validation := Py.mean (test_score scores) in
  ret (loc_set cv rowIx
         {| Estimator := estimator_name e;
            Training_score := training;
            Validation_score := validation;
            Scoring := metric |},
       rowIx + 1).

(** Lines 288-342.  [verbose] (a print per estimator), [nJobs] (handed to
    BasicModelBuilder) and [save_to_csv] (a file written at the end) leave
    the log and the object as they are and are left out. *)
Definition featureSelectorCrossVal (metrics : list string)
    (resultsSummary : option summary_frame)
    (estimators : option (list estimator))
    (nFolds : Z) (step : Z) : M cv_frame :=
  resultsSummary <- match resultsSummary with
                    | None => gets self_resultsSummary
                    | Some t => ret t
                    end ;;
  estimators <- match estimators with
                | None => gets self_estimators
                | Some l => ret l
                end ;;
  set_cvSummary [] ;;;
  for_each estimators tt (fun _ e =>
    acc <- for_each metrics ([], 0) (fun acc metric =>
             indices <- np_arange 0 (shape0 resultsSummary) step ;;
             for_each indices acc
               (evaluate resultsSummary e nFolds metric)) ;;
    cvSummary <- gets self_cvSummary ;;
    set_cvSummary (cvSummary ++ fst acc)) ;;;
  gets self_cvSummary.

End CrossVal.

(* ================================================================== *)
(** * Best-subset selection and the usage table (lines 345-466) *)
(* ================================================================== *)

Section BestSubset.
Context {S : Sorter}.

Definition validation (r : Z * cv_row) : Q := Validation_score (snd r).

(** [cvSummary[(cvSummary['Scoring'] == metric) &
               (cvSummary['Estimator'] == estimator)]]. *)
Definition select_rows (cvSummary : cv_frame) (metric estimator : string) : cv_frame :=
  filter (fun r => String.eqb (Scoring (snd r)) metric &&
                   String.eqb (Estimator (snd r)) estimator) cvSummary.

(** [cv.reset_index(drop=True)]: labels [0 .. n-1]. *)
Definition reset_index (cv : cv_frame) : cv_frame :=
  combine (map Z.of_nat (seq 0 (List.length cv))) (map snd cv).

(** [cv.set_index(keys=labels)]. *)
Definition set_index (labels : list Z) (cv : cv_frame) : cv_frame :=
  combine labels (map snd cv).

(** [cv.sort_values(["Validation score"], ascending=False)[:1]]. *)
Definition best_rows (cv : cv_frame) : cv_frame :=
  Py.slice_to 1 (sort_values validation false cv).

(** [best_rows(cv).index.values[0]]. *)
Definition best_label (cv : cv_frame) : result Z :=
  match best_rows cv with
  | r :: _ => Ok (fst r)
  | [] => Raise IndexError
  end.

(** [best_rows(cv)["Validation score"].values[0]]. *)
Definition best_score (cv : cv_frame) : result Q :=
  match best_rows cv with
  | r :: _ => Ok (validation r)
  | [] => Raise IndexError
  end.

(** Lines 397-400 and 452-455. *)
Definition featuresUsed (resultsSummary : summary_frame) (numDropped : Z) : list string :=
  if 0 <? numDropped
  then Py.slice_to (- numDropped) (index (sort_values average true resultsSummary))
  else index (sort_values average true resultsSummary).

Definition estimator_names (cvSummary : cv_frame) : list string :=
  Py.unique (map (fun r => Estimator (snd r)) cvSummary).

(** [for x in l: body] where [body] may raise. *)
Fixpoint for_result {A B} (l : list A) (acc : B) (body : B -> A -> result B) : result B :=
  match l with
  | [] => Ok acc
  | x :: l' =>
      match body acc x with
      | Ok acc' => for_result l' acc' body
      | Raise e => Raise e
      end
  end.

(** ** featureSelectorResultsPlot *)

(** What one chart reports: the estimator, the drop count and score of its
    title (the score before [np.round]) and the features printed under
    [showFeatures]. *)
Record chart : Type := {
  chart_estimator : string;
  chart_numDropped : Z;
  chart_score : Q;
  chart_featuresUsed : list string
}.

(** [np.ceil(totalFeatures / iters)]. *)
Definition ceil_div (a b : Z) : result Z :=
  if b =? 0 then Raise ZeroDivisionError
  else Ok ((a + b - 1) / b).

(** Lines 369-400 for one estimator. *)
Definition plot_one (resultsSummary : summary_frame) (cvSummary : cv_frame)
    (metric estimator : string) : result chart :=
  let cv := select_rows cvSummary metric estimator in
  let totalFeatures := shape0 resultsSummary in
  let iters := shape0 cv in
  match ceil_div totalFeatures iters with
  | Raise e => Raise e
  | Ok step =>
      match Py.arange 0 (shape0 cv * step) step with
      | None => Raise ArangeError
      | Some keys =>
          let cv := set_index keys cv in
          match best_label cv, best_score cv with
          | Ok numDropped, Ok score =>
              Ok {| chart_estimator := estimator;
                    chart_numDropped := numDropped;
                    chart_score := score;
                    chart_featuresUsed := featuresUsed resultsSummary numDropped |}
          | Raise e, _ => Raise e
          | _, Raise e => Raise e
          end
      end
  end.

(** Lines 368-425: one chart per estimator of the log. *)
Definition featureSelectorResultsPlot (resultsSummary : summary_frame)
    (cvSummary : cv_frame) (metric : string) : result (list chart) :=
  for_result (estimator_names cvSummary) []
    (fun charts estimator =>
       match plot_one resultsSummary cvSummary metric estimator with
       | Ok c => Ok (charts ++ [c])
       | Raise e => Raise e
       end).

(** ** featuresUsedSummary *)

(** Lines 443-455: the drop count read off the log for one estimator. *)
Definition numDropped_of (cvSummary : cv_frame) (metric estimator : string) : result Z :=
  best_label (reset_index (select_rows cvSummary metric estimator)).

(** Line 459, [df[estimator].loc[featuresUsed] = "X"]: the Series that
    [df[estimator]] hands out is the frame's own column (pandas before
    copy-on-write), so the marks land in [df]. *)
Definition mark (idx : list string) (column : list cell) (used : list string) : list cell :=
  map (fun p => if Py.mem (fst p) used then Str "X" else snd p) (combine idx column).

Definition mark_column (df : usage_frame) (name : string) (used : list string) : usage_frame :=
  match get_column (u_columns df) name with
  | Some column =>
      {| u_index := u_index df;
         u_columns := set_column (u_columns df) name (mark (u_index df) column used) |}
  | None => df
  end.

(** Lines 443-459: the body of the loop. *)
Definition add_estimator (resultsSummary : summary_frame) (cvSummary : cv_frame)
    (metric : string) (df : usage_frame) (estimator : string) : result usage_frame :=
  match numDropped_of cvSummary metric estimator with
  | Raise e => Raise e
  | Ok numDropped =>
      let used := featuresUsed resultsSummary numDropped in
      let df := {| u_index := u_index df;
                   u_columns := set_column (u_columns df) estimator
                                  (map (fun _ => NaN) (u_index df)) |} in
      Ok (mark_column df estimator used)
  end.

(** [df.count(axis=1)]: per row, the number of cells that are not NaN. *)
Definition is_NaN (c : cell) : bool :=
  match c with NaN => true | _ => false end.

Definition count_row (cols : list (string * list cell)) (k : nat) : Z :=
  Z.of_nat (List.length
    (filter (fun c => negb (is_NaN (nth k (snd c) NaN))) cols)).

Definition count_axis1 (df : usage_frame) : list cell :=
  map (fun k => Int (count_row (u_columns df) k)) (seq 0 (List.length (u_index df))).

(** [df.fillna("")]. *)
Definition fillna (df : usage_frame) : usage_frame :=
  {| u_index := u_index df;
     u_columns := map (fun c => (fst c,
                    map (fun x => if is_NaN x then Str "" else x) (snd c)))
                    (u_columns df) |}.

(** Lines 438-466. *)
Definition featuresUsedSummary (resultsSummary : summary_frame)
    (cvSummary : cv_frame) (metric : string) : result usage_frame :=
  let df := {| u_index := index resultsSummary; u_columns := [] |} in
  match for_result (estimator_names cvSummary) df
          (add_estimator resultsSummary cvSummary metric) with
  | Raise e => Raise e
  | Ok df =>
      let df := {| u_index := u_index df;
                   u_columns := set_column (u_columns df) "count" (count_axis1 df) |} in
      Ok (fillna df)
  end.

End BestSubset.

(* ================================================================== *)
(** * The ranking methods (lines 56-61 and 106-257) *)
(* ================================================================== *)

(** [Series.rank(ascending, method="max")] on numbers: the rank of a value
    is the number of values that come no later than it in the chosen
    order, so tied values share the largest rank of their group. *)
Definition no_later (ascending : bool) (v x : Q) : bool :=
  if ascending then Qle_bool x v else Qle_bool v x.

Definition rank_of (ascending : bool) (l : list Q) (v : Q) : Q :=
  inject_Z (shape0 (filter (no_later ascending v) l)).

Definition rank_max (ascending : bool) (l : list Q) : list Q :=
  map (rank_of ascending l) l.

(** A Python dict of arrays, keys in insertion order; [d[key] = value]. *)
Definition dict : Type := list (string * list Q).

Fixpoint dict_set (d : dict) (key : string) (value : list Q) : dict :=
  match d with
  | [] => [(key, value)]
  | (k, v) :: d' =>
      if String.eqb k key then (k, value) :: d'
      else (k, v) :: dict_set d' key value
  end.

(** A frame by columns, as the ranking methods build it. *)
Record col_frame : Type := {
  cf_index : list string;
  cf_columns : dict
}.

(** [pd.DataFrame(data, index=index)]: every array must be as long as the
    index. *)
Definition DataFrame (data : dict) (idx : list string) : result col_frame :=
  if forallb (fun c => Nat.eqb (List.length (snd c)) (List.length idx)) data
  then Ok {| cf_index := idx; cf_columns := data |}
  else Raise (Raised "ValueError").

(** [df[name] = df[name].rank(ascending, method="max")]. *)
Definition rank_column (ascending : bool) (name : string) (df : col_frame) : col_frame :=
  {| cf_index := cf_index df;
     cf_columns := map (fun c => if String.eqb (fst c) name
                                 then (fst c, rank_max ascending (snd c)) else c)
                       (cf_columns df) |}.

(** [df.rank(ascending, method="max")]: every column by itself. *)
Definition rank_frame_columns (ascending : bool) (df : col_frame) : col_frame :=
  {| cf_index := cf_index df;
     cf_columns := map (fun c => (fst c, rank_max ascending (snd c))) (cf_columns df) |}.

(** The rows of a frame: each label with its values across the columns. *)
Definition frame_rows (df : col_frame) : rank_frame :=
  map (fun k => (nth k (cf_index df) ""%string,
                 map (fun c => nth k (snd c) 0%Q) (cf_columns df)))
      (seq 0 (List.length (cf_index df))).

Section RankingMethods.
Context {S : Sorter}.
Variable estimator : Type.
Variable estimator_name : estimator -> string.

(** What the external scorers return on [self.data] and [self.target]:
    [f_classif] and [f_regression] (F-values, p-values), the [variances_]
    of [VarianceThreshold], [model.feature_importances] and the
    [ranking_] of [RFE] per estimator, and the absolute correlation of a
    column with the target. *)
Variable f_classif : list Q * list Q.
Variable f_regression : list Q * list Q.
Variable variances_ : list Q.
Variable feature_importances : estimator -> list Q.
Variable ranking_ : estimator -> list Q.
Variable abs_corr : string -> Q.

(** The object (lines 56-61): [self.data.columns], [self.target.name],
    [self.estimators], [self.rank], [self.classification]. *)
Record selector : Type := {
  columns : list string;
  target_name : string;
  estimators : list estimator;
  rank : bool;
  classification : bool
}.

Variable self : selector.

(** Lines 113-129 and 139-155, for what the scorer returned. *)
Definition featureSelectorFScore (univariate : list Q * list Q) : result rank_frame :=
  let featureDict := dict_set (dict_set [] "F-value" (fst univariate))
                              "p-value" (snd univariate) in
  match DataFrame featureDict (columns self) with
  | Raise e => Raise e
  | Ok featureDf =>
      let featureDf :=
        if rank self
        then rank_column true "p-value" (rank_column false "F-value" featureDf)
        else featureDf in
      Ok (frame_rows featureDf)
  end.

Definition featureSelectorFScoreClass : result rank_frame :=
  featureSelectorFScore f_classif.

Definition featureSelectorFScoreReg : result rank_frame :=
  featureSelectorFScore f_regression.

(** Lines 164-177. *)
Definition featureSelectorVariance : result rank_frame :=
  match DataFrame [("Variance"%string, variances_)] (columns self) with
  | Raise e => Raise e
  | Ok featureDf =>
      let featureDf :=
        if rank self then rank_column false "Variance" featureDf else featureDf in
      Ok (frame_rows featureDf)
  end.

(** Lines 187-192 and 211-220: one dict entry per estimator, keyed by a
    prefix and the estimator's name. *)
Definition per_estimator (prefix : string) (array : estimator -> list Q) : dict :=
  fold_left (fun featureDict e =>
               dict_set featureDict (prefix ++ estimator_name e) (array e))
            (estimators self) [].

(** Lines 187-200. *)
Definition featureSelectorImportance : result rank_frame :=
  match DataFrame (per_estimator "FeatureImportance " feature_importances)
                  (columns self) with
  | Raise e => Raise e
  | Ok featureDf =>
      let featureDf :=
        if rank self then rank_frame_columns false featureDf else featureDf in
      Ok (frame_rows featureDf)
  end.

(** Lines 211-228. *)
Definition featureSelectorRFE : result rank_frame :=
  match DataFrame (per_estimator "RFE " ranking_) (columns self) with
  | Raise e => Raise e
  | Ok featureDf =>
      let featureDf :=
        if rank self then rank_frame_columns true featureDf else featureDf in
      Ok (frame_rows featureDf)
  end.

(** The value of a one-column row. *)
Definition value (r : string * list Q) : Q := hd 0%Q (snd r).

(** Lines 239-257, for a target whose name is not a column of the data:
    the correlations with the target of every column and of the target
    itself, sorted in descending order, without the target's own row, and
    ranked. *)
Definition featureSelectorCorr : rank_frame :=
  let featureDf := map (fun c => (c, [abs_corr c]))
                       (columns self ++ [target_name self]) in
  let featureDf := sort_values value false featureDf in
  let featureDf := filter (fun r => negb (String.eqb (fst r) (target_name self)))
                          featureDf in
  if rank self
  then map (fun r => (fst r, [rank_of false (map value featureDf) (value r)])) featureDf
  else featureDf.

(** [std] as in section [Summary]. *)
Variable std : list Q -> Q.

(** Lines 76-95 and 103: the five methods in the order the source calls
    them, then the join, the summary columns and the sort. *)
Definition run_featureSelectorSummary : result summary_frame :=
  match featureSelectorVariance with
  | Raise e => Raise e
  | Ok resultsVariance =>
  match featureSelectorImportance with
  | Raise e => Raise e
  | Ok resultsImportance =>
  match featureSelectorRFE with
  | Raise e => Raise e
  | Ok resultsRFE =>
  let resultsCorr := featureSelectorCorr in
  match (if classification self then featureSelectorFScoreClass
         else featureSelectorFScoreReg) with
  | Raise e => Raise e
  | Ok resultsFScore =>
      Ok (featureSelectorSummary std
            {| resultsFScore := resultsFScore;
               resultsVariance := resultsVariance;
               resultsCorr := resultsCorr;
               resultsRFE := resultsRFE;
               resultsImportance := resultsImportance |})
  end end end end.

End RankingMethods.

(* ================================================================== *)
(** * Two sorts that meet the interface *)
(* ================================================================== *)

(** Two sorts that meet the interface: insertion sort that keeps rows with
    equal keys in their input order, and one that reverses them. *)
Module Insertion.

Fixpoint insert {A} (before : A -> A -> bool) (x : A) (l : list A) : list A :=
  match l with
  | [] => [x]
  | y :: l' => if before x y then x :: l else y :: insert before x l'
  end.

Definition sort {A} (before : A -> A -> bool) (l : list A) : list A :=
  fold_right (insert before) [] l.

(** [x] goes before the first [y] with [key x <= key y] (resp. [>=]). *)
Definition before_stable {A} (by_ : A -> Q) (ascending : bool) (x y : A) : bool :=
  if ascending then Qle_bool (by_ x) (by_ y) else Qle_bool (by_ y) (by_ x).

(** [x] goes before the first [y] with [key x < key y] (resp. [>]). *)
Definition before_strict {A} (by_ : A -> Q) (ascending : bool) (x y : A) : bool :=
  if ascending then negb (Qle_bool (by_ y) (by_ x)) else negb (Qle_bool (by_ x) (by_ y)).

Lemma insert_perm {A} (before : A -> A -> bool) x l :
  Permutation (x :: l) (insert before x l).
Proof.
  induction l as [|y l IH]; simpl.
  - apply Permutation_refl.
  - destruct (before x y).
    + apply Permutation_refl.
    + eapply perm_trans; [apply perm_swap|]. now apply perm_skip.
Qed.

Lemma sort_perm {A} (before : A -> A -> bool) l :
  Permutation l (sort before l).
Proof.
  induction l as [|x l IH]; simpl.
  - constructor.
  - eapply perm_trans; [apply perm_skip, IH | apply insert_perm].
Qed.

Section Sortedness.
Context {A : Type} (R : A -> A -> Prop) (before : A -> A -> bool).
Hypothesis before_true : forall x y, before x y = true -> R x y.
Hypothesis before_false : forall x y, before x y = false -> R y x.

Lemma insert_hdrel x y l : R y x -> HdRel R y l -> HdRel R y (insert before x l).
Proof.
  intros Hyx Hl. destruct l as [|z l]; simpl.
  - now constructor.
  - inversion Hl; subst. destruct (before x z); now constructor.
Qed.

Lemma insert_sorted x l : Sorted R l -> Sorted R (insert before x l).
Proof.
  induction 1 as [|y l Hs IH Hhd]; simpl.
  - repeat constructor.
  - destruct (before x y) eqn:E.
    + constructor; [now constructor | constructor; auto].
    + constructor; [exact IH | apply insert_hdrel; auto].
Qed.

Lemma sort_sorted l : Sorted R (sort before l).
Proof.
  induction l as [|x l IH]; simpl; [constructor | now apply insert_sorted].
Qed.
End Sortedness.

Lemma Qle_bool_false a b : Qle_bool a b = false -> (b <= a)%Q.
Proof.
  intros E. destruct (Qlt_le_dec b a) as [H|H].
  - now apply Qlt_le_weak.
  - apply Qle_bool_iff in H. congruence.
Qed.

Lemma before_stable_true {A} (by_ : A -> Q) asc x y :
  before_stable by_ asc x y = true -> ordered by_ asc x y.
Proof. destruct asc; simpl; apply Qle_bool_iff. Qed.

Lemma before_stable_false {A} (by_ : A -> Q) asc x y :
  before_stable by_ asc x y = false -> ordered by_ asc y x.
Proof. destruct asc; simpl; apply Qle_bool_false. Qed.

Lemma before_strict_true {A} (by_ : A -> Q) asc x y :
  before_strict by_ asc x y = true -> ordered by_ asc x y.
Proof.
  destruct asc; simpl; intros E; apply negb_true_iff in E;
    now apply Qle_bool_false.
Qed.

Lemma before_strict_false {A} (by_ : A -> Q) asc x y :
  before_strict by_ asc x y = false -> ordered by_ asc y x.
Proof.
  destruct asc; simpl; intros E; apply negb_false_iff in E;
    now apply Qle_bool_iff.
Qed.

(** Equal keys keep their input order. *)
Definition stable : Sorter := {|
  sort_values := fun A by_ asc l => sort (before_stable by_ asc) l;
  sort_values_perm := fun A by_ asc l => sort_perm (before_stable by_ asc) l;
  sort_values_sorted := fun A by_ asc l =>
    sort_sorted (ordered by_ asc) (before_stable by_ asc)
      (before_stable_true by_ asc) (before_stable_false by_ asc) l
|}.

(** Equal keys come back in reverse input order. *)
Definition reversing : Sorter := {|
  sort_values := fun A by_ asc l => sort (before_strict by_ asc) l;
  sort_values_perm := fun A by_ asc l => sort_perm (before_strict by_ asc) l;
  sort_values_sorted := fun A by_ asc l =>
    sort_sorted (ordered by_ asc) (before_strict by_ asc)
      (before_strict_true by_ asc) (before_strict_false by_ asc) l
|}.

End Insertion.

(* ================================================================== *)
(** * Properties of the primitives *)
(* ================================================================== *)

Module PyFacts.

(** [ceil(F / step)] on integers. *)
Definition ceil_quot (F step : Z) : Z := (F + step - 1) / step.

Lemma ceil_quot_lt F step k : 0 < step -> (k < ceil_quot F step <-> k * step < F).
Proof.
  intros Hs. unfold ceil_quot. split; intros H.
  - assert (Hk : k + 1 <= (F + step - 1) / step) by lia.
    assert (step * (k + 1) <= F + step - 1).
    { etransitivity; [apply Z.mul_le_mono_nonneg_l; [lia | exact Hk]|].
      apply Z.mul_div_le; lia. }
    lia.
  - assert (k + 1 <= (F + step - 1) / step); [|lia].
    apply Z.div_le_lower_bound; lia.
Qed.

Lemma ceil_quot_pos F step : 0 < step -> 1 <= F -> 1 <= ceil_quot F step.
Proof.
  intros Hs HF. assert (0 < ceil_quot F step); [|lia].
  apply ceil_quot_lt; lia.
Qed.

Lemma ceil_quot_nonneg F step : 0 < step -> 0 <= F -> 0 <= ceil_quot F step.
Proof.
  intros Hs HF. unfold ceil_quot. apply Z.div_pos; lia.
Qed.

(** The indices [0, step, 2*step, ...] below [F]. *)
Definition sweep_indices (F step : Z) : list Z :=
  map (fun k => Z.of_nat k * step) (seq 0 (Z.to_nat (ceil_quot F step))).

(** [np.arange(0, F, step)] for a positive step. *)
Lemma arange_from_0 F step :
  0 < step -> Py.arange 0 F step = Some (sweep_indices F step).
Proof.
  intros Hs. unfold Py.arange, Py.arange_len, sweep_indices, ceil_quot.
  destruct (Z.eqb_spec step 0) as [->|_]; [lia|].
  destruct (Z.ltb_spec 0 step) as [_|]; [|lia].
  rewrite Z.sub_0_r. do 3 f_equal. lia.
Qed.

Lemma sweep_indices_length F step :
  0 < step -> 0 <= F -> shape0 (sweep_indices F step) = ceil_quot F step.
Proof.
  intros Hs HF. unfold shape0, sweep_indices.
  rewrite length_map, length_seq, Z2Nat.id; [reflexivity|].
  now apply ceil_quot_nonneg.
Qed.

Lemma sweep_indices_In F step i :
  0 < step ->
  (In i (sweep_indices F step) <-> exists k : nat, i = Z.of_nat k * step /\ i < F).
Proof.
  intros Hs. unfold sweep_indices. rewrite in_map_iff. split.
  - intros (k & <- & Hk). exists k. split; [reflexivity|].
    apply in_seq in Hk. apply ceil_quot_lt; lia.
  - intros (k & -> & Hk). exists k. split; [reflexivity|].
    apply in_seq. apply ceil_quot_lt in Hk; lia.
Qed.

Lemma slice_to_neg {A} (i : Z) (l : list A) :
  0 < i -> i < Z.of_nat (List.length l) ->
  Py.slice_to (- i) l = firstn (Z.to_nat (Z.of_nat (List.length l) - i)) l.
Proof.
  intros H0 H1. unfold Py.slice_to.
  destruct (Z.ltb_spec (- i) 0); [|lia].
  f_equal. lia.
Qed.

End PyFacts.

(* ================================================================== *)
(** * The sweep of featureSelectorCrossVal *)
(* ================================================================== *)

Section Sweep.
Context {S : Sorter}.
Variable estimator : Type.
Variable estimator_name : estimator -> string.
Variable cross_validate : estimator -> list string -> Z -> string -> result cv_scores.
Variable nFolds : Z.
Variable resultsSummary : summary_frame.

(** The object after the log and the call record have been replaced. *)
Definition update (s : state estimator) (cv : cv_frame)
    (calls : list (cv_call estimator)) : state estimator :=
  {| self_estimators := self_estimators s;
     self_resultsSummary := self_resultsSummary s;
     self_cvSummary := cv;
     cv_calls := calls |}.

Lemma update_same s : update s (self_cvSummary s) (cv_calls s) = s.
Proof. now destruct s. Qed.

(** Rows labelled [start], [start + 1], ... *)
Fixpoint label_from (start : Z) (rows : list cv_row) : cv_frame :=
  match rows with
  | [] => []
  | r :: rows' => (start, r) :: label_from (start + 1) rows'
  end.

Lemma label_from_length start rows :
  List.length (label_from start rows) = List.length rows.
Proof. revert start. induction rows; intros; simpl; auto. Qed.

Lemma label_from_map_snd start rows : map snd (label_from start rows) = rows.
Proof. revert start. induction rows; intros; simpl; f_equal; auto. Qed.

(** [cv.loc[rowIx] = row] appends when [rowIx] is a new label. *)
Lemma loc_set_fresh {R} (df : list (Z * R)) label row :
  Forall (fun p => fst p < label) df -> loc_set df label row = df ++ [(label, row)].
Proof.
  intros H. unfold loc_set.
  replace (existsb (fun p => fst p =? label) df) with false; [reflexivity|].
  symmetry. induction H as [|p df Hp _ IH]; simpl; [reflexivity|].
  rewrite IH, orb_false_r. apply Z.eqb_neq. lia.
Qed.

(** ** Loops *)

Lemma for_each_app {A B} (l1 l2 : list A) (acc : B) (body : B -> A -> M estimator B) s :
  for_each (l1 ++ l2) acc body s =
  bind (for_each l1 acc body) (fun acc' => for_each l2 acc' body) s.
Proof.
  revert acc s. induction l1 as [|x l1 IH]; intros acc s; simpl.
  - reflexivity.
  - unfold bind in *. destruct (body acc x s) as [s' [acc'|e]].
    + apply IH.
    + reflexivity.
Qed.

Lemma for_each_map {A A' B} (f : A' -> A) (l : list A') (acc : B) (body : B -> A -> M estimator B) s :
  for_each (map f l) acc body s = for_each l acc (fun a x => body a (f x)) s.
Proof.
  revert acc s. induction l as [|x l IH]; intros acc s; simpl.
  - reflexivity.
  - unfold bind. destruct (body acc (f x) s) as [s' [acc'|e]]; auto.
Qed.

(** The metric loop and the index loop as one loop over the pairs
    (metric, i), metric-major. *)
Definition evaluate_pair (e : estimator) (acc : cv_frame * Z) (p : string * Z) :=
  evaluate estimator_name cross_validate resultsSummary e nFolds (fst p) acc (snd p).

Lemma metric_loop_flat e metrics indices step acc s :
  Py.arange 0 (shape0 resultsSummary) step = Some indices ->
  for_each metrics acc
    (fun acc metric =>
       bind (np_arange (estimator:=estimator) 0 (shape0 resultsSummary) step)
         (fun indices =>
            for_each indices acc
              (evaluate estimator_name cross_validate resultsSummary e nFolds metric))) s
  = for_each (list_prod metrics indices) acc (evaluate_pair e) s.
Proof.
  intros Har.
  set (body := fun (acc : cv_frame * Z) (metric : string) => bind _ _).
  revert acc s. induction metrics as [|m metrics IH]; intros acc s.
  - reflexivity.
  - cbn [for_each list_prod]. rewrite for_each_app.
    unfold bind. rewrite for_each_map. unfold body at 1.
    unfold bind, np_arange. rewrite Har. unfold ret at 1.
    change (fun a x => evaluate_pair e a (m, x))
      with (evaluate estimator_name cross_validate resultsSummary e nFolds m).
    destruct (for_each indices acc _ s) as [s' [acc'|err]]; [apply IH | reflexivity].
Qed.

(** ** One estimator *)

(** The per-fold scores of the calls that return. *)
Variable scores : estimator -> string -> Z -> cv_scores.

Definition succeeds (e : estimator) (p : string * Z) : Prop :=
  cross_validate e (top_features resultsSummary (snd p)) nFolds (fst p)
  = Ok (scores e (fst p) (snd p)).

(** The row of line 332 for estimator [e], metric [fst p], index [snd p]. *)
Definition record (e : estimator) (p : string * Z) : cv_row :=
  {| Estimator := estimator_name e;
     Training_score := Py.mean (train_score (scores e (fst p) (snd p)));
     Validation_score := Py.mean (test_score (scores e (fst p) (snd p)));
     Scoring := fst p |}.

Definition call_of (e : estimator) (p : string * Z) : cv_call estimator :=
  (e, top_features resultsSummary (snd p), fst p).

Lemma evaluate_pair_ok e p cv rowIx s :
  succeeds e p ->
  Forall (fun r => fst r < rowIx) cv ->
  evaluate_pair e (cv, rowIx) p s =
    (update s (self_cvSummary s) (cv_calls s ++ [call_of e p]),
     Ok (cv ++ [(rowIx, record e p)], rowIx + 1)).
Proof.
  intros Hok Hfresh. unfold evaluate_pair, evaluate, bind, call_cross_validate.
  rewrite Hok. unfold ret. now rewrite loc_set_fresh.
Qed.

Lemma evaluate_pair_raise e p acc s err :
  cross_validate e (top_features resultsSummary (snd p)) nFolds (fst p) = Raise err ->
  evaluate_pair e acc p s =
    (update s (self_cvSummary s) (cv_calls s ++ [call_of e p]), Raise err).
Proof.
  intros Hr. destruct acc as [cv rowIx].
  unfold evaluate_pair, evaluate, bind, call_cross_validate. now rewrite Hr.
Qed.

Lemma pairs_ok e pairs : forall cv rowIx s,
  Forall (succeeds e) pairs ->
  Forall (fun r => fst r < rowIx) cv ->
  for_each pairs (cv, rowIx) (evaluate_pair e) s =
    (update s (self_cvSummary s) (cv_calls s ++ map (call_of e) pairs),
     Ok (cv ++ label_from rowIx (map (record e) pairs),
         rowIx + Z.of_nat (List.length pairs))).
Proof.
  induction pairs as [|p pairs IH]; intros cv rowIx s Hok Hfresh.
  - simpl. unfold ret. now rewrite !app_nil_r, Z.add_0_r, update_same.
  - inversion Hok as [|? ? Hp Hps]; subst.
    cbn [for_each]. unfold bind. rewrite evaluate_pair_ok by assumption.
    rewrite IH.
    + cbn [update self_cvSummary cv_calls map label_from List.length].
      rewrite <- !app_assoc. cbn [app]. do 3 f_equal. lia.
    + exact Hps.
    + apply Forall_app. split.
      * eapply Forall_impl; [|exact Hfresh]. simpl. intros; lia.
      * repeat constructor. simpl. lia.
Qed.

Lemma pairs_raise e pre p post cv rowIx s err :
  Forall (succeeds e) pre ->
  cross_validate e (top_features resultsSummary (snd p)) nFolds (fst p) = Raise err ->
  Forall (fun r => fst r < rowIx) cv ->
  for_each (pre ++ p :: post) (cv, rowIx) (evaluate_pair e) s =
    (update s (self_cvSummary s) (cv_calls s ++ map (call_of e) pre ++ [call_of e p]),
     Raise err).
Proof.
  intros Hpre Hp Hfresh. rewrite for_each_app. unfold bind at 1.
  rewrite pairs_ok by assumption. cbn [for_each]. unfold bind.
  rewrite evaluate_pair_raise with (err := err) by assumption.
  cbn [update self_cvSummary cv_calls]. now rewrite <- app_assoc.
Qed.

(** ** All estimators *)

Variable metrics : list string.
Variable step : Z.
Hypothesis step_pos : 1 <= step.

(** The pairs (metric, i) of one estimator's sweep, in loop order. *)
Definition sweep : list (string * Z) :=
  list_prod metrics (PyFacts.sweep_indices (shape0 resultsSummary) step).

(** Lines 302-336: the body of the loop over the estimators. *)
Definition estimator_body (_ : unit) (e : estimator) : M estimator unit :=
  bind (for_each metrics ([], 0)
          (fun acc metric =>
             bind (np_arange (estimator:=estimator) 0 (shape0 resultsSummary) step)
               (fun indices =>
                  for_each indices acc
                    (evaluate estimator_name cross_validate resultsSummary e nFolds metric))))
    (fun acc =>
       bind (gets (@self_cvSummary estimator))
         (fun cvSummary => set_cvSummary (cvSummary ++ fst acc))).

Definition rows_of (e : estimator) : cv_frame :=
  label_from 0 (map (record e) sweep).

Definition calls_of (e : estimator) : list (cv_call estimator) :=
  map (call_of e) sweep.

Lemma estimator_body_ok e s :
  Forall (succeeds e) sweep ->
  estimator_body tt e s =
    (update s (self_cvSummary s ++ rows_of e) (cv_calls s ++ calls_of e), Ok tt).
Proof.
  intros Hok. unfold estimator_body. unfold bind at 1.
  rewrite metric_loop_flat
    with (indices := PyFacts.sweep_indices (shape0 resultsSummary) step)
    by (apply PyFacts.arange_from_0; lia).
  fold sweep. rewrite pairs_ok by (assumption || constructor).
  reflexivity.
Qed.

Lemma estimator_body_raise e pre p post s err :
  sweep = pre ++ p :: post ->
  Forall (succeeds e) pre ->
  cross_validate e (top_features resultsSummary (snd p)) nFolds (fst p) = Raise err ->
  estimator_body tt e s =
    (update s (self_cvSummary s) (cv_calls s ++ map (call_of e) pre ++ [call_of e p]),
     Raise err).
Proof.
  intros Hsw Hpre Hp. unfold estimator_body. unfold bind at 1.
  rewrite metric_loop_flat
    with (indices := PyFacts.sweep_indices (shape0 resultsSummary) step)
    by (apply PyFacts.arange_from_0; lia).
  fold sweep. rewrite Hsw.
  rewrite pairs_raise with (err := err) by (assumption || constructor).
  reflexivity.
Qed.

Lemma estimators_ok estimators : forall s,
  Forall (fun e => Forall (succeeds e) sweep) estimators ->
  for_each estimators tt estimator_body s =
    (update s (self_cvSummary s ++ flat_map rows_of estimators)
              (cv_calls s ++ flat_map calls_of estimators), Ok tt).
Proof.
  induction estimators as [|e estimators IH]; intros s Hok.
  - simpl. unfold ret. now rewrite !app_nil_r, update_same.
  - inversion Hok as [|? ? He Hes]; subst.
    cbn [for_each flat_map]. unfold bind. rewrite estimator_body_ok by assumption.
    rewrite IH by assumption.
    cbn [update self_cvSummary cv_calls]. now rewrite <- !app_assoc.
Qed.

Lemma estimators_raise done e rest pre p post s err :
  Forall (fun e => Forall (succeeds e) sweep) done ->
  sweep = pre ++ p :: post ->
  Forall (succeeds e) pre ->
  cross_validate e (top_features resultsSummary (snd p)) nFolds (fst p) = Raise err ->
  for_each (done ++ e :: rest) tt estimator_body s =
    (update s (self_cvSummary s ++ flat_map rows_of done)
              (cv_calls s ++ flat_map calls_of done
                 ++ map (call_of e) pre ++ [call_of e p]),
     Raise err).
Proof.
  intros Hdone Hsw Hpre Hp. rewrite for_each_app. unfold bind at 1.
  rewrite estimators_ok by assumption. cbn [for_each]. unfold bind.
  rewrite estimator_body_raise with (pre := pre) (p := p) (post := post) (err := err)
    by assumption.
  cbn [update self_cvSummary cv_calls]. now rewrite <- !app_assoc.
Qed.

(** The function, from the point where its arguments are known. *)
Lemma featureSelectorCrossVal_unfold estimators s :
  featureSelectorCrossVal estimator_name cross_validate metrics
    (Some resultsSummary) (Some estimators) nFolds step s
  = match for_each estimators tt estimator_body (update s [] (cv_calls s)) with
    | (s', Ok _) => (s', Ok (self_cvSummary s'))
    | (s', Raise e) => (s', Raise e)
    end.
Proof. reflexivity. Qed.

Lemma flat_map_length_const {A B} (f : A -> list B) (n : Z) (l : list A) :
  (forall x, shape0 (f x) = n) -> shape0 (flat_map f l) = shape0 l * n.
Proof.
  intros Hf. unfold shape0 in *.
  induction l as [|x l IH]; cbn [flat_map List.length].
  - reflexivity.
  - rewrite length_app, Nat2Z.inj_add, IH, Hf, Nat2Z.inj_succ. ring.
Qed.

Lemma sweep_length :
  shape0 sweep = shape0 metrics * PyFacts.ceil_quot (shape0 resultsSummary) step.
Proof.
  unfold sweep. rewrite <- PyFacts.sweep_indices_length by (unfold shape0; lia).
  unfold shape0. now rewrite length_prod, Nat2Z.inj_mul.
Qed.



End Sweep.

(* ================================================================== *)
(** * Sorting on pairwise distinct keys *)
(* ================================================================== *)

Section DistinctKeys.
Context {A : Type} (key : A -> Q).

(** No two positions of the list hold rows with equal keys. *)
Definition distinct_keys (l : list A) : Prop :=
  ForallOrdPairs (fun a b => ~ (key a == key b)%Q) l.

Lemma distinct_keys_NoDup l : distinct_keys l -> NoDup l.
Proof.
  induction 1 as [|a l Ha _ IH]; constructor; [|exact IH].
  intros Hin. rewrite Forall_forall in Ha. apply (Ha a Hin). reflexivity.
Qed.

Lemma distinct_keys_inj l :
  distinct_keys l ->
  forall a b, In a l -> In b l -> (key a == key b)%Q -> a = b.
Proof.
  induction 1 as [|x l Hx _ IH]; intros a b Ha Hb Hab; [contradiction|].
  rewrite Forall_forall in Hx.
  destruct Ha as [<-|Ha], Hb as [<-|Hb].
  - reflexivity.
  - exfalso. exact (Hx b Hb Hab).
  - exfalso. apply (Hx a Ha). now symmetry.
  - now apply IH.
Qed.

Lemma sorted_strongly asc (l : list A) :
  Sorted (ordered key asc) l -> StronglySorted (ordered key asc) l.
Proof.
  apply Sorted_StronglySorted. intros x y z. unfold ordered.
  destruct asc; intros H1 H2; eapply Qle_trans; eassumption.
Qed.

(** Two ascending orderings of the same rows agree when the keys are
    pairwise distinct. *)
Lemma sorted_unique (l1 : list A) : forall l2,
  Permutation l1 l2 ->
  NoDup l1 ->
  (forall a b, In a l1 -> In b l1 -> (key a == key b)%Q -> a = b) ->
  StronglySorted (ordered key true) l1 ->
  StronglySorted (ordered key true) l2 ->
  l1 = l2.
Proof.
  induction l1 as [|x l1 IH]; intros l2 Hperm Hnd Hinj H1 H2.
  - now apply Permutation_nil in Hperm.
  - destruct l2 as [|y l2].
    { apply Permutation_sym, Permutation_nil in Hperm. discriminate. }
    assert (Hxy : x = y).
    { assert (Hx : In x (y :: l2)) by (eapply Permutation_in; [exact Hperm | now left]).
      assert (Hy : In y (x :: l1))
        by (eapply Permutation_in; [apply Permutation_sym; exact Hperm | now left]).
      destruct Hx as [Hx|Hx]; [now symmetry|].
      destruct Hy as [Hy|Hy]; [exact Hy|].
      inversion H1 as [|? ? _ Hx1]; subst. inversion H2 as [|? ? _ Hy2]; subst.
      rewrite Forall_forall in Hx1, Hy2.
      apply Hinj; [now left | now right |].
      apply Qle_antisym; [apply (Hx1 y Hy) | apply (Hy2 x Hx)]. }
    subst y. f_equal. apply IH.
    + eapply Permutation_cons_inv; exact Hperm.
    + now inversion Hnd.
    + intros a b Ha Hb. apply Hinj; now right.
    + now inversion H1.
    + now inversion H2.
Qed.

End DistinctKeys.

Section SortFacts.
Context {S : Sorter}.

(** The ascending sort of a table with pairwise distinct keys does not
    depend on the order of its rows. *)
Lemma sort_values_perm_invariant {A} (key : A -> Q) (l l' : list A) :
  Permutation l l' ->
  distinct_keys key l ->
  sort_values key true l = sort_values key true l'.
Proof.
  intros Hperm Hd.
  assert (Hp : Permutation l (sort_values key true l)) by apply sort_values_perm.
  apply sorted_unique with (key := key).
  - eapply perm_trans; [apply Permutation_sym, Hp|].
    eapply perm_trans; [exact Hperm | apply sort_values_perm].
  - eapply Permutation_NoDup; [exact Hp | now apply (distinct_keys_NoDup (key := key))].
  - intros a b Ha Hb. apply (distinct_keys_inj Hd);
      eapply Permutation_in; try (apply Permutation_sym; exact Hp); assumption.
  - apply sorted_strongly, sort_values_sorted.
  - apply sorted_strongly, sort_values_sorted.
Qed.

Lemma sort_values_length {A} (key : A -> Q) asc (l : list A) :
  List.length (sort_values key asc l) = List.length l.
Proof. symmetry. apply Permutation_length, sort_values_perm. Qed.

End SortFacts.

(* ================================================================== *)
(** * The subsets of the sweep *)
(* ================================================================== *)

Section Subsets.
Context {S : Sorter}.

(** The consensus ordering the sweep works with (lines 313 and 316). *)
Definition ranked (resultsSummary : summary_frame) : list string :=
  index (sort_values average true resultsSummary).

(** The sizes of the subsets evaluated at the given indices. *)
Definition subset_sizes (resultsSummary : summary_frame) (indices : list Z) : list Z :=
  map (fun i => shape0 (top_features resultsSummary i)) indices.

Lemma ranked_length rs : shape0 (ranked rs) = shape0 rs.
Proof.
  unfold shape0, ranked, index. now rewrite length_map, sort_values_length.
Qed.

Lemma top_features_0 rs : top_features rs 0 = ranked rs.
Proof. reflexivity. Qed.

Lemma top_features_pos rs i :
  0 < i -> i < shape0 rs ->
  top_features rs i = firstn (Z.to_nat (shape0 rs - i)) (ranked rs).
Proof.
  intros H0 HF. unfold top_features.
  destruct (Z.eqb_spec i 0); [lia|].
  fold (ranked rs). rewrite <- ranked_length in *.
  now apply PyFacts.slice_to_neg.
Qed.

Lemma top_features_size rs i :
  0 <= i -> i < shape0 rs -> shape0 (top_features rs i) = shape0 rs - i.
Proof.
  intros H0 HF. destruct (Z.eq_dec i 0) as [->|Hi].
  - rewrite top_features_0, ranked_length. lia.
  - rewrite top_features_pos by lia. unfold shape0 at 1.
    rewrite length_firstn. pose proof (ranked_length rs) as Hl.
    unfold shape0 in *. lia.
Qed.

Lemma subset_sizes_eq rs step :
  0 < step ->
  subset_sizes rs (PyFacts.sweep_indices (shape0 rs) step)
  = map (fun i => shape0 rs - i) (PyFacts.sweep_indices (shape0 rs) step).
Proof.
  intros Hs. apply map_ext_in. intros i Hi.
  apply PyFacts.sweep_indices_In in Hi; [|exact Hs].
  destruct Hi as (k & -> & Hk). apply top_features_size; nia.
Qed.

Lemma sizes_decreasing F step n : forall k0,
  0 < step ->
  StronglySorted Z.gt
    (map (fun i => F - i) (map (fun k => Z.of_nat k * step) (seq k0 n))).
Proof.
  induction n as [|n IH]; intros k0 Hs; simpl; constructor.
  - now apply IH.
  - rewrite map_map. apply Forall_forall. intros x Hx.
    apply in_map_iff in Hx. destruct Hx as (k & <- & Hk).
    apply in_seq in Hk. nia.
Qed.

(** C2.  For a table of [F >= 1] rows and [step >= 1]: the indices of the
    sweep are [np.arange(0, F, step)], the multiples [k * step] below [F],
    [ceil(F / step)] of them; the subset at 0 is the whole consensus
    ordering and the subset at [i > 0] is its first [F - i] names; the
    sizes are [F - i], strictly decreasing and at least 1; for [F = 10]
    and [step = 3] they are [10; 7; 4; 1]. *)
Theorem subset_sequence (resultsSummary : summary_frame) (step : Z) :
  1 <= shape0 resultsSummary ->
  1 <= step ->
  let F := shape0 resultsSummary in
  exists indices,
    Py.arange 0 F step = Some indices /\
    indices = map (fun k => Z.of_nat k * step)
                  (seq 0 (Z.to_nat (PyFacts.ceil_quot F step))) /\
    (forall i, In i indices <-> exists k : nat, i = Z.of_nat k * step /\ i < F) /\
    shape0 indices = PyFacts.ceil_quot F step /\
    top_features resultsSummary 0 = ranked resultsSummary /\
    shape0 (ranked resultsSummary) = F /\
    (forall i, In i indices -> 0 < i ->
       top_features resultsSummary i
       = firstn (Z.to_nat (F - i)) (ranked resultsSummary)) /\
    subset_sizes resultsSummary indices = map (fun i => F - i) indices /\
    StronglySorted Z.gt (subset_sizes resultsSummary indices) /\
    Forall (fun n => 1 <= n) (subset_sizes resultsSummary indices) /\
    (F = 10 -> step = 3 -> subset_sizes resultsSummary indices = [10; 7; 4; 1]).
Proof.
  intros HF Hs F. exists (PyFacts.sweep_indices F step).
  assert (Hsz := subset_sizes_eq resultsSummary (step := step) ltac:(lia)).
  fold F in Hsz.
  split; [apply PyFacts.arange_from_0; lia|].
  split; [reflexivity|].
  split; [intros i; apply PyFacts.sweep_indices_In; lia|].
  split; [apply PyFacts.sweep_indices_length; lia|].
  split; [reflexivity|].
  split; [apply ranked_length|].
  split.
  { intros i Hi Hpos. apply PyFacts.sweep_indices_In in Hi; [|lia].
    destruct Hi as (k & -> & Hk). now apply top_features_pos. }
  split; [exact Hsz|].
  split; [rewrite Hsz; apply sizes_decreasing; lia|].
  split.
  { rewrite Hsz. apply Forall_forall. intros n Hn.
    apply in_map_iff in Hn. destruct Hn as (i & <- & Hi).
    apply PyFacts.sweep_indices_In in Hi; [|lia].
    destruct Hi as (k & -> & Hk). lia. }
  intros H10 ->. rewrite Hsz, H10. reflexivity.
Qed.

End Subsets.

(* ================================================================== *)
(** * The sweep and the row order of the table; empty argument lists *)
(* ================================================================== *)

Section RowOrder.
Context {S : Sorter}.
Variable estimator : Type.
Variable estimator_name : estimator -> string.
Variable cross_validate : estimator -> list string -> Z -> string -> result cv_scores.

Lemma for_each_ext {A B} (l : list A) (body body' : B -> A -> M estimator B) :
  (forall acc x s, body acc x s = body' acc x s) ->
  forall acc s, for_each l acc body s = for_each l acc body' s.
Proof.
  intros Hb. induction l as [|x l IH]; intros acc s; simpl.
  - reflexivity.
  - unfold bind. rewrite Hb. destruct (body' acc x s) as [s' [acc'|e]]; auto.
Qed.

Lemma evaluate_ext t t' e nFolds metric acc i s :
  top_features t i = top_features t' i ->
  evaluate estimator_name cross_validate t e nFolds metric acc i s
  = evaluate estimator_name cross_validate t' e nFolds metric acc i s.
Proof.
  intros Htop. destruct acc as [cv rowIx]. unfold evaluate. now rewrite Htop.
Qed.

Lemma estimator_body_ext t t' nFolds metrics step e s :
  shape0 t = shape0 t' ->
  (forall i, top_features t i = top_features t' i) ->
  estimator_body estimator_name cross_validate nFolds t metrics step tt e s
  = estimator_body estimator_name cross_validate nFolds t' metrics step tt e s.
Proof.
  intros Hlen Htop. unfold estimator_body. unfold bind at 1 4.
  rewrite for_each_ext with
    (body' := fun acc metric =>
       bind (np_arange (estimator:=estimator) 0 (shape0 t') step)
         (fun indices =>
            for_each indices acc
              (evaluate estimator_name cross_validate t' e nFolds metric))).
  - reflexivity.
  - intros acc metric s0. rewrite Hlen. unfold bind.
    destruct (np_arange 0 (shape0 t') step s0) as [s1 [indices|err]]; [|reflexivity].
    apply for_each_ext. intros acc' i s2. now apply evaluate_ext.
Qed.

(** C10.  The subsets depend on the rows of the table, not on their order:
    when the averages are pairwise distinct and [t'] holds the rows of [t]
    in another order, the sorted table, every subset and the whole run of
    featureSelectorCrossVal (log, object and calls) are the same. *)
Theorem crossval_row_order_irrelevant (t t' : summary_frame) :
  Permutation t t' ->
  distinct_keys average t ->
  sort_values average true t = sort_values average true t' /\
  (forall i, top_features t i = top_features t' i) /\
  (forall step, Py.arange 0 (shape0 t) step = Py.arange 0 (shape0 t') step) /\
  (forall metrics estimators nFolds step s,
     featureSelectorCrossVal estimator_name cross_validate metrics
       (Some t) (Some estimators) nFolds step s
     = featureSelectorCrossVal estimator_name cross_validate metrics
       (Some t') (Some estimators) nFolds step s).
Proof.
  intros Hperm Hd.
  assert (Hsort := sort_values_perm_invariant Hperm Hd).
  assert (Hlen : shape0 t = shape0 t')
    by (unfold shape0; f_equal; now apply Permutation_length).
  assert (Htop : forall i, top_features t i = top_features t' i)
    by (intros i; unfold top_features; now rewrite Hsort).
  split; [exact Hsort|]. split; [exact Htop|].
  split; [intros step; now rewrite Hlen|].
  intros metrics estimators nFolds step s.
  rewrite !featureSelectorCrossVal_unfold.
  rewrite for_each_ext with
    (body' := estimator_body estimator_name cross_validate nFolds t' metrics step).
  - reflexivity.
  - intros [] e s0. now apply estimator_body_ext.
Qed.

(** C8 (as the code has it).  With no estimator, or with no metric, the
    function returns normally: the log it returns and stores is empty and
    [cross_validate] is not called. *)
Theorem crossval_empty_lists :
  (forall metrics t nFolds step (s : state estimator),
     featureSelectorCrossVal estimator_name cross_validate metrics
       (Some t) (Some []) nFolds step s
     = (update s [] (cv_calls s), Ok [])) /\
  (forall estimators t nFolds step (s : state estimator),
     featureSelectorCrossVal estimator_name cross_validate []
       (Some t) (Some estimators) nFolds step s
     = (update s [] (cv_calls s), Ok [])).
Proof.
  split.
  - reflexivity.
  - intros estimators t nFolds step s.
    rewrite featureSelectorCrossVal_unfold.
    assert (H : forall s0 : state estimator,
              self_cvSummary s0 = [] ->
              for_each estimators tt
                (estimator_body estimator_name cross_validate nFolds t [] step) s0
              = (s0, Ok tt)).
    { induction estimators as [|e estimators IH]; intros s0 Hs0.
      - reflexivity.
      - cbn [for_each]. unfold bind at 1.
        replace (estimator_body estimator_name cross_validate nFolds t [] step tt e s0)
          with (s0, @Ok unit tt).
        + now apply IH.
        + unfold estimator_body, bind, gets, set_cvSummary. cbn [for_each ret fst].
          rewrite app_nil_r. destruct s0; simpl in *. now subst. }
    now rewrite H.
Qed.

End RowOrder.

(* ================================================================== *)
(** * The consensus table *)
(* ================================================================== *)

Lemma mem_In x l : Py.mem x l = true <-> In x l.
Proof.
  unfold Py.mem. rewrite existsb_exists. split.
  - intros (y & Hy & E). apply String.eqb_eq in E. now subst.
  - intros H. exists x. split; [exact H | apply String.eqb_refl].
Qed.

Lemma mean_spec (l : list Q) :
  l <> [] -> (Py.mean l * inject_Z (shape0 l) == Py.Qsum l)%Q.
Proof.
  intros Hl. unfold Py.mean, shape0. rewrite Qmult_comm. apply Qmult_div_r.
  destruct l as [|x l]; [congruence|].
  unfold Qeq. simpl. lia.
Qed.

Section SummaryFacts.
Context {S : Sorter}.
Variable std : list Q -> Q.

(** The rows of the join with their summary columns, before the sort. *)
Definition joined (r : RankResults) : summary_frame :=
  map (add_stats std) (concat_inner (results r)).

Lemma concat_inner_index first rest :
  frame_index (concat_inner (first :: rest))
  = filter (fun n => forallb (fun fr => Py.mem n (frame_index fr)) rest)
           (frame_index first).
Proof.
  unfold concat_inner, frame_index at 1. rewrite map_map. simpl. apply map_id.
Qed.

Lemma joined_index r : index (joined r) = frame_index (concat_inner (results r)).
Proof.
  unfold joined, index, frame_index. rewrite map_map. reflexivity.
Qed.

Lemma concat_inner_In f first rest :
  In f (frame_index (concat_inner (first :: rest)))
  <-> (forall fr, In fr (first :: rest) -> In f (frame_index fr)).
Proof.
  rewrite concat_inner_index, filter_In, forallb_forall. split.
  - intros (H1 & H2) fr [<-|Hfr]; [exact H1|]. apply mem_In. now apply H2.
  - intros H. split; [apply H; now left|].
    intros fr Hfr. apply mem_In, H. now right.
Qed.

Lemma summary_perm r : Permutation (joined r) (featureSelectorSummary std r).
Proof. apply sort_values_perm. Qed.



End SummaryFacts.

(* ================================================================== *)
(** * Sorts that keep ties *)
(* ================================================================== *)

Lemma insert_stable_filter {A} (by_ : A -> Q) asc (k : Q) x l :
  filter (fun z => Qeq_bool (by_ z) k)
         (Insertion.insert (Insertion.before_stable by_ asc) x l)
  = filter (fun z => Qeq_bool (by_ z) k) (x :: l).
Proof.
  induction l as [|y l IH]; [reflexivity|].
  cbn [Insertion.insert].
  destruct (Insertion.before_stable by_ asc x y) eqn:E; [reflexivity|].
  cbn [filter] in *. rewrite IH.
  destruct (Qeq_bool (by_ x) k) eqn:Ex, (Qeq_bool (by_ y) k) eqn:Ey; try reflexivity.
  exfalso. apply Qeq_bool_iff in Ex, Ey.
  assert (Hxy : (by_ x == by_ y)%Q) by (rewrite Ex, Ey; reflexivity).
  assert (H : Insertion.before_stable by_ asc x y = true).
  { unfold Insertion.before_stable.
    destruct asc; apply Qle_bool_iff; rewrite Hxy; apply Qle_refl. }
  congruence.
Qed.

(** The insertion sort [Insertion.stable] keeps ties. *)
Lemma stable_keeps_ties : keeps_ties Insertion.stable.
Proof.
  intros A by_ asc l k. cbn [sort_values Insertion.stable]. unfold Insertion.sort.
  induction l as [|x l IH]; [reflexivity|].
  cbn [fold_right]. rewrite insert_stable_filter. cbn [filter]. now rewrite IH.
Qed.

Lemma filter_strongly_sorted {A} (R : A -> A -> Prop) (p : A -> bool) (l : list A) :
  StronglySorted R l -> StronglySorted R (filter p l).
Proof.
  induction 1 as [|x l Hs IH Hall]; simpl; [constructor|].
  destruct (p x); [|exact IH]. constructor; [exact IH|].
  apply Forall_forall. intros y Hy. apply filter_In in Hy.
  rewrite Forall_forall in Hall. now apply Hall.
Qed.

Lemma seq_map_sorted (f : nat -> Z) (n : nat) : forall a,
  (forall i j, (i < j)%nat -> f i < f j) ->
  StronglySorted Z.lt (map f (seq a n)).
Proof.
  induction n as [|n IH]; intros a Hf; simpl; constructor.
  - now apply IH.
  - apply Forall_forall. intros z Hz. apply in_map_iff in Hz.
    destruct Hz as (j & <- & Hj). apply in_seq in Hj. apply Hf. lia.
Qed.

(** Increasing labels stay increasing on the rows. *)
Lemma combine_sorted {R} (labels : list Z) : forall rows : list R,
  StronglySorted Z.lt labels ->
  StronglySorted (fun a b => fst a < fst b) (combine labels rows).
Proof.
  induction labels as [|k labels IH]; intros rows Hs; [constructor|].
  destruct rows as [|r rows]; [constructor|].
  inversion Hs as [|? ? Hs' Hall]; subst. simpl. constructor; [now apply IH|].
  apply Forall_forall. intros [k' r'] Hin. apply in_combine_l in Hin.
  rewrite Forall_forall in Hall. simpl. now apply Hall.
Qed.

Lemma reset_index_sorted (cv : cv_frame) :
  StronglySorted (fun a b => fst a < fst b) (reset_index cv).
Proof.
  apply combine_sorted. apply seq_map_sorted. intros; lia.
Qed.

(* ================================================================== *)
(** * Best-subset selection *)
(* ================================================================== *)

Section BestSubsetFacts.
Context {S : Sorter}.

Lemma slice_to_1 {A} (x : A) (l : list A) : Py.slice_to 1 (x :: l) = [x].
Proof.
  unfold Py.slice_to. cbn [List.length]. rewrite Nat2Z.inj_succ.
  destruct (Z.ltb_spec 1 0); [lia|].
  replace (Z.min 1 (Z.succ (Z.of_nat (List.length l)))) with 1 by lia.
  reflexivity.
Qed.

(** The row [sort_values(["Validation score"], ascending=False)[:1]] keeps
    is a row of the frame with the largest validation score. *)
Lemma best_rows_max (cv : cv_frame) :
  cv <> [] ->
  exists r, best_rows cv = [r] /\ In r cv /\
            forall r', In r' cv -> (validation r' <= validation r)%Q.
Proof.
  intros Hne. unfold best_rows.
  pose proof (sort_values_perm validation false cv) as Hperm.
  pose proof (sort_values_sorted validation false cv) as Hsorted.
  apply (sorted_strongly (key := validation) (asc := false)) in Hsorted.
  destruct (sort_values validation false cv) as [|r l].
  - apply Permutation_sym, Permutation_nil in Hperm. contradiction.
  - exists r. split; [apply slice_to_1|]. split.
    + eapply Permutation_in; [apply Permutation_sym; exact Hperm | now left].
    + intros r' Hr'. apply (Permutation_in _ Hperm) in Hr'.
      destruct Hr' as [<-|Hr']; [apply Qle_refl|].
      inversion Hsorted as [|? ? _ Hall]; subst.
      rewrite Forall_forall in Hall. exact (Hall r' Hr').
Qed.

Lemma best_label_max (cv : cv_frame) :
  cv <> [] ->
  exists r, In r cv /\ best_label cv = Ok (fst r) /\
            best_score cv = Ok (validation r) /\
            forall r', In r' cv -> (validation r' <= validation r)%Q.
Proof.
  intros Hne. destruct (best_rows_max Hne) as (r & Hb & Hin & Hmax).
  exists r. unfold best_label, best_score. rewrite Hb. auto.
Qed.

(** With a sort that keeps ties, the row kept by [best_rows] is the first
    row of the frame with the largest validation score: among the rows
    that share it, the one with the smallest label. *)
Lemma best_rows_first_tie (cv : cv_frame) (r : Z * cv_row) :
  keeps_ties S ->
  StronglySorted (fun a b => fst a < fst b) cv ->
  best_rows cv = [r] ->
  forall r', In r' cv -> (validation r' == validation r)%Q -> fst r <= fst r'.
Proof.
  intros Hties Hlabels Hbest r' Hin Heq.
  specialize (Hties _ validation false cv (validation r)).
  unfold best_rows in Hbest.
  destruct (sort_values validation false cv) as [|x rest] eqn:Es.
  { discriminate. }
  rewrite slice_to_1 in Hbest. inversion Hbest; subst x.
  cbn [filter] in Hties. rewrite Qeq_bool_refl in Hties.
  assert (Hr' : In r' (filter (fun x => Qeq_bool (validation x) (validation r)) cv)).
  { apply filter_In. split; [exact Hin | now apply Qeq_bool_iff]. }
  pose proof (filter_strongly_sorted
                (fun x => Qeq_bool (validation x) (validation r)) Hlabels) as Hs.
  rewrite <- Hties in Hr', Hs.
  destruct Hr' as [<-|Hr']; [lia|].
  inversion Hs as [|? ? _ Hall]; subst.
  rewrite Forall_forall in Hall. specialize (Hall r' Hr'). lia.
Qed.

(** Relabelling keeps the rows. *)
Lemma combine_rows (labels : list Z) (cv : cv_frame) :
  List.length labels = List.length cv ->
  map snd (combine labels (map snd cv)) = map snd cv.
Proof.
  revert labels. induction cv as [|r cv IH]; intros [|k labels] H;
    simpl in *; try reflexivity; try discriminate.
  f_equal. apply IH. lia.
Qed.

Lemma reset_index_rows cv : map snd (reset_index cv) = map snd cv.
Proof.
  unfold reset_index. apply combine_rows. now rewrite length_map, length_seq.
Qed.

Lemma relabelled_max (cv cv' : cv_frame) (r : Z * cv_row) :
  map snd cv' = map snd cv ->
  (forall r', In r' cv' -> (validation r' <= validation r)%Q) ->
  forall r', In r' cv -> (validation r' <= validation r)%Q.
Proof.
  intros Hrows Hmax r' Hr'.
  assert (Hin : In (snd r') (map snd cv')) by (rewrite Hrows; now apply in_map).
  apply in_map_iff in Hin. destruct Hin as (r'' & E & Hr'').
  specialize (Hmax r'' Hr''). unfold validation in *. now rewrite <- E.
Qed.

Lemma plot_keys F iters :
  1 <= F -> 1 <= iters ->
  exists step keys,
    ceil_div F iters = Ok step /\ 1 <= step /\
    Py.arange 0 (iters * step) step = Some keys /\
    keys = map (fun k => Z.of_nat k * step) (seq 0 (Z.to_nat iters)).
Proof.
  intros HF Hi. exists ((F + iters - 1) / iters).
  assert (Hstep : 1 <= (F + iters - 1) / iters)
    by (apply (PyFacts.ceil_quot_pos (F := F) (step := iters)); lia).
  eexists. split; [|split; [exact Hstep | split; [|reflexivity]]].
  - unfold ceil_div. destruct (Z.eqb_spec iters 0); [lia | reflexivity].
  - rewrite PyFacts.arange_from_0 by lia. unfold PyFacts.sweep_indices.
    set (q := (F + iters - 1) / iters) in *.
    assert (E : PyFacts.ceil_quot (iters * q) q = iters).
    { unfold PyFacts.ceil_quot.
      replace (iters * q + q - 1) with (q - 1 + iters * q) by lia.
      rewrite Z.div_add by lia. rewrite Z.div_small by lia. lia. }
    now rewrite E.
Qed.

Lemma nonempty_shape0 {A} (l : list A) : l <> [] -> 1 <= shape0 l.
Proof. destruct l; [contradiction | unfold shape0; simpl; lia]. Qed.

Lemma same_rows_nonempty (cv cv' : cv_frame) :
  map snd cv' = map snd cv -> cv <> [] -> cv' <> [].
Proof.
  intros Hrows Hne E. subst cv'. destruct cv; [contradiction | discriminate].
Qed.


End BestSubsetFacts.

(* ================================================================== *)
(** * The usage table *)
(* ================================================================== *)

Lemma unique_NoDup l : NoDup (Py.unique l).
Proof.
  induction l as [|x l IH]; simpl; constructor.
  - rewrite filter_In. intros [_ H]. now rewrite String.eqb_refl in H.
  - now apply NoDup_filter.
Qed.

Lemma set_column_fresh cols name column :
  ~ In name (map fst cols) -> set_column cols name column = cols ++ [(name, column)].
Proof.
  induction cols as [|[n c] cols IH]; simpl; intros Hn; [reflexivity|].
  destruct (String.eqb_spec n name) as [->|_]; [tauto|].
  f_equal. apply IH. tauto.
Qed.

Lemma set_column_last cols name column column' :
  ~ In name (map fst cols) ->
  set_column (cols ++ [(name, column)]) name column' = cols ++ [(name, column')].
Proof.
  induction cols as [|[n c] cols IH]; simpl; intros Hn.
  - now rewrite String.eqb_refl.
  - destruct (String.eqb_spec n name) as [->|_]; [tauto|].
    f_equal. apply IH. tauto.
Qed.

Lemma get_column_last cols name column :
  ~ In name (map fst cols) -> get_column (cols ++ [(name, column)]) name = Some column.
Proof.
  unfold get_column. induction cols as [|[n c] cols IH]; simpl; intros Hn.
  - now rewrite String.eqb_refl.
  - destruct (String.eqb_spec n name) as [->|_]; [tauto|]. apply IH. tauto.
Qed.

Lemma get_set_same cols name column :
  get_column (set_column cols name column) name = Some column.
Proof.
  unfold get_column. induction cols as [|[n c] cols IH]; simpl.
  - now rewrite String.eqb_refl.
  - destruct (String.eqb_spec n name) as [->|Hn]; simpl.
    + now rewrite String.eqb_refl.
    + destruct (String.eqb_spec n name); [contradiction | exact IH].
Qed.

Lemma get_set_other cols name column other :
  other <> name ->
  get_column (set_column cols name column) other = get_column cols other.
Proof.
  intros Hne. unfold get_column. induction cols as [|[n c] cols IH]; simpl.
  - destruct (String.eqb_spec name other); [congruence | reflexivity].
  - destruct (String.eqb_spec n name) as [->|Hn]; simpl.
    + destruct (String.eqb_spec name other); [congruence | reflexivity].
    + destruct (String.eqb_spec n other); [reflexivity | exact IH].
Qed.

Lemma get_column_map (g : list cell -> list cell) cols name :
  get_column (map (fun c => (fst c, g (snd c))) cols) name
  = option_map g (get_column cols name).
Proof.
  unfold get_column. induction cols as [|[n c] cols IH]; simpl; [reflexivity|].
  destruct (String.eqb n name); [reflexivity | exact IH].
Qed.

Lemma get_column_table (g : string -> list cell) names e :
  In e names -> get_column (map (fun e => (e, g e)) names) e = Some (g e).
Proof.
  unfold get_column. induction names as [|n names IH]; simpl; [contradiction|].
  intros [->|Hin].
  - now rewrite String.eqb_refl.
  - destruct (String.eqb_spec n e) as [->|_]; [reflexivity | now apply IH].
Qed.

Lemma set_column_names cols name column :
  map fst (set_column cols name column)
  = if Py.mem name (map fst cols) then map fst cols else map fst cols ++ [name].
Proof.
  induction cols as [|[n c] cols IH]; simpl; [reflexivity|].
  rewrite (String.eqb_sym name n).
  destruct (String.eqb_spec n name) as [->|_]; simpl; [reflexivity|].
  rewrite IH. fold (Py.mem name (map fst cols)).
  now destruct (Py.mem name (map fst cols)).
Qed.

Lemma set_column_Forall (P : list cell -> Prop) cols name column :
  Forall (fun c => P (snd c)) cols -> P column ->
  Forall (fun c => P (snd c)) (set_column cols name column).
Proof.
  intros Hc Hp. induction Hc as [|[n c] cols Hn Hcols IH]; simpl.
  - now repeat constructor.
  - destruct (String.eqb n name); constructor; auto.
Qed.

Lemma map_nth_seq {A B} (g : A -> B) (l : list A) (d : A) :
  map (fun k => g (nth k l d)) (seq 0 (List.length l)) = map g l.
Proof.
  induction l as [|x l IH]; simpl; [reflexivity|].
  f_equal. rewrite <- seq_shift, map_map. exact IH.
Qed.

Lemma filter_map_length {A B} (p : B -> bool) (h : A -> B) (l : list A) :
  List.length (filter p (map h l)) = List.length (filter (fun x => p (h x)) l).
Proof.
  induction l as [|x l IH]; simpl; [reflexivity|].
  destruct (p (h x)); simpl; now rewrite IH.
Qed.

Lemma mark_NaN idx used :
  mark idx (map (fun _ => NaN) idx) used
  = map (fun f => if Py.mem f used then Str "X" else NaN) idx.
Proof.
  unfold mark. induction idx as [|f idx IH]; simpl; [reflexivity|].
  now rewrite IH.
Qed.

Lemma nth_map_in {A B} (g : A -> B) (l : list A) (k : nat) (d : A) (d' : B) :
  (k < List.length l)%nat -> nth k (map g l) d' = g (nth k l d).
Proof.
  intros Hk. rewrite (nth_indep _ d' (g d)) by now rewrite length_map.
  apply map_nth.
Qed.

Section UsageTable.
Context {S : Sorter}.
Variable resultsSummary : summary_frame.
Variable cvSummary : cv_frame.
Variable metric : string.

(** The winning feature-name list of an estimator, as lines 447-455
    compute it. *)
Definition winning (estimator : string) : list string :=
  match numDropped_of cvSummary metric estimator with
  | Ok numDropped => featuresUsed resultsSummary numDropped
  | Raise _ => []
  end.

(** The column of an estimator before and after [fillna]. *)
Definition raw_marks (estimator : string) : list cell :=
  map (fun f => if Py.mem f (winning estimator) then Str "X" else NaN)
      (index resultsSummary).

Definition marks (estimator : string) : list cell :=
  map (fun f => if Py.mem f (winning estimator) then Str "X" else Str "")
      (index resultsSummary).

(** The number of estimators of the log whose winning list holds [f]. *)
Definition used_count (f : string) : Z :=
  shape0 (filter (fun e => Py.mem f (winning e)) (estimator_names cvSummary)).

Hypothesis scored :
  forall e, In e (estimator_names cvSummary) -> select_rows cvSummary metric e <> [].

Lemma numDropped_of_ok e :
  In e (estimator_names cvSummary) ->
  exists numDropped, numDropped_of cvSummary metric e = Ok numDropped.
Proof.
  intros He. unfold numDropped_of.
  assert (Hne := same_rows_nonempty
                   (reset_index_rows (select_rows cvSummary metric e)) (scored e He)).
  destruct (best_label_max Hne) as (r & _ & H & _).
  now exists (fst r).
Qed.

Lemma add_estimator_fresh cols e :
  In e (estimator_names cvSummary) ->
  ~ In e (map fst cols) ->
  add_estimator resultsSummary cvSummary metric
    {| u_index := index resultsSummary; u_columns := cols |} e
  = Ok {| u_index := index resultsSummary;
          u_columns := cols ++ [(e, raw_marks e)] |}.
Proof.
  intros He Hfresh. unfold add_estimator, raw_marks, winning.
  destruct (numDropped_of_ok e He) as (nd & ->).
  unfold mark_column. cbn [u_index u_columns].
  rewrite set_column_fresh by assumption.
  rewrite get_column_last by assumption.
  now rewrite set_column_last, mark_NaN by assumption.
Qed.

Lemma estimators_loop names : forall cols,
  (forall e, In e names -> In e (estimator_names cvSummary)) ->
  NoDup names ->
  (forall e, In e names -> ~ In e (map fst cols)) ->
  for_result names {| u_index := index resultsSummary; u_columns := cols |}
    (add_estimator resultsSummary cvSummary metric)
  = Ok {| u_index := index resultsSummary;
          u_columns := cols ++ map (fun e => (e, raw_marks e)) names |}.
Proof.
  induction names as [|e names IH]; intros cols Hin Hnd Hfresh.
  - simpl. now rewrite app_nil_r.
  - cbn [for_result]. rewrite add_estimator_fresh by (auto using in_eq).
    inversion Hnd as [|? ? He Hnd']; subst.
    rewrite IH.
    + cbn [map]. now rewrite <- app_assoc.
    + intros e' He'. apply Hin. now right.
    + exact Hnd'.
    + intros e' He'. rewrite map_app, in_app_iff. simpl.
      intros [H|[<-|[]]]; [|contradiction].
      apply (Hfresh e'); [now right | exact H].
Qed.

Lemma count_axis1_table names :
  count_axis1 {| u_index := index resultsSummary;
                 u_columns := map (fun e => (e, raw_marks e)) names |}
  = map (fun f => Int (shape0 (filter (fun e => Py.mem f (winning e)) names)))
        (index resultsSummary).
Proof.
  unfold count_axis1. cbn [u_index u_columns].
  rewrite <- (map_nth_seq
    (fun f => Int (shape0 (filter (fun e => Py.mem f (winning e)) names)))
    (index resultsSummary) ""%string).
  apply map_ext_in. intros k Hk. apply in_seq in Hk.
  f_equal. unfold count_row, shape0. f_equal.
  rewrite filter_map_length. f_equal. apply filter_ext. intros e. cbn [snd].
  unfold raw_marks.
  rewrite (nth_map_in _ _ ""%string) by lia.
  now destruct (Py.mem (nth k (index resultsSummary) ""%string) (winning e)).
Qed.


End UsageTable.

(* ================================================================== *)
(** * What featuresUsedSummary reads off a log of the sweep *)
(* ================================================================== *)

Lemma filter_flat_map {X Y} (keep : Y -> bool) (rows : X -> list Y) (xs : list X) :
  filter keep (flat_map rows xs) = flat_map (fun x => filter keep (rows x)) xs.
Proof.
  induction xs as [|x xs IH]; cbn [flat_map]; [reflexivity|].
  now rewrite filter_app, IH.
Qed.

Lemma filter_map_swap {A B} (p : B -> bool) (f : A -> B) (l : list A) :
  filter p (map f l) = map f (filter (fun x => p (f x)) l).
Proof.
  induction l as [|x l IH]; simpl; [reflexivity|].
  destruct (p (f x)); simpl; now rewrite IH.
Qed.

Lemma filter_none {A} (p : A -> bool) (l : list A) :
  (forall x, In x l -> p x = false) -> filter p l = [].
Proof.
  induction l as [|x l IH]; intros H; simpl; [reflexivity|].
  rewrite (H x (or_introl eq_refl)). apply IH. intros y Hy. apply H. now right.
Qed.

Lemma filter_all {A} (p : A -> bool) (l : list A) :
  (forall x, In x l -> p x = true) -> filter p l = l.
Proof.
  induction l as [|x l IH]; intros H; simpl; [reflexivity|].
  rewrite (H x (or_introl eq_refl)). f_equal. apply IH. intros y Hy. apply H. now right.
Qed.

(** The pairs of metric [m] in a metric-major sweep. *)
Lemma list_prod_metric (metrics : list string) (indices : list Z) (m : string) :
  NoDup metrics -> In m metrics ->
  filter (fun p => String.eqb (fst p) m) (list_prod metrics indices)
  = map (pair m) indices.
Proof.
  induction 1 as [|m0 metrics Hm0 Hnd IH]; intros Hin; [contradiction|].
  cbn [list_prod]. rewrite filter_app.
  assert (Hother : forall m', m' <> m ->
            filter (fun p : string * Z => String.eqb (fst p) m)
                   (map (pair m') indices) = []).
  { intros m' Hne. apply filter_none. intros p Hp.
    apply in_map_iff in Hp. destruct Hp as (i & <- & _). simpl.
    now apply String.eqb_neq. }
  destruct Hin as [->|Hin].
  - rewrite filter_all.
    + rewrite filter_none; [apply app_nil_r|].
      intros [m' i] Hp. apply in_prod_iff in Hp. destruct Hp as [Hm' _]. simpl.
      apply String.eqb_neq. intros ->. contradiction.
    + intros p Hp. apply in_map_iff in Hp. destruct Hp as (i & <- & _).
      apply String.eqb_refl.
  - rewrite Hother, IH by (assumption || (intros ->; contradiction)). reflexivity.
Qed.

Lemma reset_index_label_from (cv : cv_frame) :
  reset_index cv = label_from 0 (map snd cv).
Proof.
  unfold reset_index. rewrite <- (length_map snd cv).
  change 0 with (Z.of_nat 0). generalize 0%nat.
  induction (map snd cv) as [|r rows IH]; intros a; simpl; [reflexivity|].
  f_equal. rewrite IH. f_equal. lia.
Qed.

Lemma label_from_seq (g : nat -> cv_row) (n : nat) : forall a,
  label_from (Z.of_nat a) (map g (seq a n))
  = map (fun p => (Z.of_nat p, g p)) (seq a n).
Proof.
  induction n as [|n IH]; intros a; simpl; [reflexivity|].
  f_equal. rewrite <- IH. f_equal. lia.
Qed.

Lemma select_rows_rows (cvSummary : cv_frame) (metric estimator : string) :
  map snd (select_rows cvSummary metric estimator)
  = filter (fun r => String.eqb (Scoring r) metric &&
                     String.eqb (Estimator r) estimator) (map snd cvSummary).
Proof.
  unfold select_rows. induction cvSummary as [|r cv IH]; simpl; [reflexivity|].
  destruct (String.eqb (Scoring (snd r)) metric && String.eqb (Estimator (snd r)) estimator);
    simpl; now rewrite IH.
Qed.

Lemma flat_map_single {A B} (h : A -> list B) (x : A) (l : list A) :
  NoDup l -> In x l ->
  (forall y, In y l -> y <> x -> h y = []) ->
  flat_map h l = h x.
Proof.
  induction 1 as [|a l Ha Hnd IH]; intros Hin Hh; [contradiction|].
  cbn [flat_map]. destruct Hin as [->|Hin].
  - assert (Hrest : flat_map h l = []).
    { clear IH Hnd. induction l as [|y l IH]; [reflexivity|]. cbn [flat_map].
      rewrite (Hh y); [|right; now left | intros ->; apply Ha; now left].
      apply IH; [intros H; apply Ha; now right|].
      intros z [->|Hz] Hne; apply Hh; auto using in_eq, in_cons. }
    rewrite Hrest. apply app_nil_r.
  - rewrite (Hh a); [|now left | intros ->; contradiction].
    apply IH; [exact Hin|]. intros y Hy. apply Hh. now right.
Qed.

Lemma map_of_flat_map {A B C} (f : B -> C) (g : A -> list B) (l : list A) :
  map f (flat_map g l) = flat_map (fun x => map f (g x)) l.
Proof.
  induction l as [|x l IH]; simpl; [reflexivity|]. now rewrite map_app, IH.
Qed.

Section Recovery.
Context {S : Sorter}.
Variable estimator : Type.
Variable estimator_name : estimator -> string.
Variable scores : estimator -> string -> Z -> cv_scores.
Variable resultsSummary : summary_frame.
Variable metrics : list string.
Variable step : Z.
Variable estimators : list estimator.

Hypothesis step_pos : 1 <= step.
Hypothesis has_features : 1 <= shape0 resultsSummary.
Hypothesis distinct_estimators : NoDup estimators.
Hypothesis distinct_names :
  forall e e', In e estimators -> In e' estimators ->
               estimator_name e = estimator_name e' -> e = e'.
Hypothesis distinct_metrics : NoDup metrics.

(** The log a sweep without failures returns. *)
Definition sweep_log : cv_frame :=
  flat_map (rows_of estimator_name resultsSummary scores metrics step) estimators.

(** The rows of one (estimator, metric) pair are that pair's records, by
    increasing index. *)
Lemma pair_rows e m :
  In e estimators -> In m metrics ->
  map snd (select_rows sweep_log m (estimator_name e))
  = map (fun i => record estimator_name scores e (m, i))
        (PyFacts.sweep_indices (shape0 resultsSummary) step).
Proof.
  intros He Hm. rewrite select_rows_rows. unfold sweep_log.
  rewrite map_of_flat_map, filter_flat_map.
  rewrite flat_map_single with (x := e); try assumption.
  - unfold rows_of. rewrite label_from_map_snd, filter_map_swap.
    cbn [record Scoring Estimator]. unfold sweep.
    rewrite filter_ext with (g := fun p : string * Z => String.eqb (fst p) m).
    + rewrite list_prod_metric by assumption. now rewrite map_map.
    + intros p. cbn beta. now rewrite String.eqb_refl, andb_true_r.
  - intros e' He' Hne. unfold rows_of. rewrite label_from_map_snd.
    apply filter_none. intros r Hr. apply in_map_iff in Hr.
    destruct Hr as (p & <- & _). cbn [record Scoring Estimator].
    apply andb_false_iff. right. apply String.eqb_neq.
    intros E. apply Hne. now apply distinct_names.
Qed.

(** X7.  What featuresUsedSummary reads off the log for a pair of the sweep:
    the position [p] of a best record among the pair's records.  That
    record was evaluated at index [p * step], on the top
    [F - p * step] features; the list recovered from [p] is the top
    [F - p] features.  The two agree when [step = 1]. *)
Lemma featuresUsedSummary_reads_position e m :
  In e estimators -> In m metrics ->
  exists p : nat,
    numDropped_of sweep_log m (estimator_name e) = Ok (Z.of_nat p) /\
    In (Z.of_nat p * step) (PyFacts.sweep_indices (shape0 resultsSummary) step) /\
    In (Z.of_nat p, record estimator_name scores e (m, Z.of_nat p * step))
       (reset_index (select_rows sweep_log m (estimator_name e))) /\
    (forall i, In i (PyFacts.sweep_indices (shape0 resultsSummary) step) ->
       (Validation_score (record estimator_name scores e (m, i))
        <= Validation_score
             (record estimator_name scores e (m, (Z.of_nat p * step)%Z)))%Q) /\
    featuresUsed resultsSummary (Z.of_nat p) = top_features resultsSummary (Z.of_nat p) /\
    (step = 1 ->
     featuresUsed resultsSummary (Z.of_nat p)
     = top_features resultsSummary (Z.of_nat p * step)).
Proof.
  intros He Hm.
  set (cv := select_rows sweep_log m (estimator_name e)).
  set (g := fun p : nat => record estimator_name scores e (m, Z.of_nat p * step)).
  assert (Hrows : reset_index cv
                  = map (fun p => (Z.of_nat p, g p))
                        (seq 0 (Z.to_nat (PyFacts.ceil_quot (shape0 resultsSummary) step)))).
  { rewrite reset_index_label_from. unfold cv. rewrite pair_rows by assumption.
    unfold PyFacts.sweep_indices. rewrite map_map.
    apply (label_from_seq g _ 0). }
  assert (Hne : reset_index cv <> []).
  { rewrite Hrows.
    pose proof (PyFacts.ceil_quot_pos (F := shape0 resultsSummary) (step := step)
                  ltac:(lia) has_features) as HK.
    destruct (Z.to_nat (PyFacts.ceil_quot (shape0 resultsSummary) step)) eqn:E;
      [lia | discriminate]. }
  destruct (best_rows_max Hne) as (r & Hbest & Hin & Hmax).
  assert (Hr := Hin). rewrite Hrows in Hr. apply in_map_iff in Hr.
  destruct Hr as (p & <- & Hp). exists p.
  split; [unfold numDropped_of, best_label; fold cv; now rewrite Hbest|].
  split; [unfold PyFacts.sweep_indices; apply in_map_iff; now exists p|].
  split; [exact Hin|]. split; [|split].
  - intros i Hi. unfold PyFacts.sweep_indices in Hi. apply in_map_iff in Hi.
    destruct Hi as (k & <- & Hk).
    apply (Hmax (Z.of_nat k, g k)). rewrite Hrows. apply in_map_iff. now exists k.
  - unfold featuresUsed, top_features.
    destruct (Z.ltb_spec 0 (Z.of_nat p)), (Z.eqb_spec (Z.of_nat p) 0);
      try reflexivity; lia.
  - intros ->. rewrite Z.mul_1_r. unfold featuresUsed, top_features.
    destruct (Z.ltb_spec 0 (Z.of_nat p)), (Z.eqb_spec (Z.of_nat p) 0);
      try reflexivity; lia.
Qed.

End Recovery.

(* ================================================================== *)
(** * featureSelectorCrossVal: every outcome *)
(* ================================================================== *)

(** The first element of a list that fails a test, if any. *)
Lemma first_failure {A} (ok : A -> bool) (l : list A) :
  forallb ok l = true \/
  exists pre x post, l = pre ++ x :: post /\ forallb ok pre = true /\ ok x = false.
Proof.
  induction l as [|a l IH]; [now left|].
  destruct (ok a) eqn:Ea.
  - destruct IH as [IH|(pre & x & post & -> & Hpre & Hx)].
    + left. simpl. now rewrite Ea.
    + right. exists (a :: pre), x, post. simpl. now rewrite Ea.
  - right. exists [], a, l. auto.
Qed.

Section Outcome.
Context {S : Sorter}.
Variable estimator : Type.
Variable estimator_name : estimator -> string.
Variable cross_validate : estimator -> list string -> Z -> string -> result cv_scores.
Variable nFolds : Z.
Variable resultsSummary : summary_frame.
Variable metrics : list string.
Variable step : Z.

(** The call for estimator [e] and the pair [p] = (metric, index) returns. *)
Definition returns (e : estimator) (p : string * Z) : Prop :=
  exists scores,
    cross_validate e (top_features resultsSummary (snd p)) nFolds (fst p) = Ok scores.

Definition returnsb (e : estimator) (p : string * Z) : bool :=
  match cross_validate e (top_features resultsSummary (snd p)) nFolds (fst p) with
  | Ok _ => true
  | Raise _ => false
  end.

(** The scores of the calls that return (empty lists for the others). *)
Definition scores_of (e : estimator) (metric : string) (i : Z) : cv_scores :=
  match cross_validate e (top_features resultsSummary i) nFolds metric with
  | Ok scores => scores
  | Raise _ => {| train_score := []; test_score := [] |}
  end.

Lemma returnsb_returns e p : returnsb e p = true <-> returns e p.
Proof.
  unfold returnsb, returns.
  destruct (cross_validate e _ nFolds (fst p)) as [sc|err]; split;
    [intros _; now exists sc | reflexivity | discriminate | intros [sc H]; discriminate].
Qed.

Lemma returnsb_succeeds e p :
  returnsb e p = true -> succeeds cross_validate nFolds resultsSummary scores_of e p.
Proof.
  unfold returnsb, succeeds, scores_of.
  destruct (cross_validate e _ nFolds (fst p)); [reflexivity | discriminate].
Qed.

Lemma returnsb_raises e p :
  returnsb e p = false ->
  exists err,
    cross_validate e (top_features resultsSummary (snd p)) nFolds (fst p) = Raise err.
Proof.
  unfold returnsb.
  destruct (cross_validate e _ nFolds (fst p)) as [sc|err]; [discriminate|].
  intros _. now exists err.
Qed.

Hypothesis step_pos : 1 <= step.

(** X1.  The function returns a log exactly when every call of the sweep
    returns; the log is then the one of the loop order, built from the
    scores of the calls.  When it raises, it raises what some call of the
    sweep raised. *)
Theorem crossval_returns_iff (estimators : list estimator) (s : state estimator) :
  let run := featureSelectorCrossVal estimator_name cross_validate metrics
               (Some resultsSummary) (Some estimators) nFolds step s in
  ((exists log, snd run = Ok log) <->
   (forall e p, In e estimators -> In p (sweep resultsSummary metrics step) ->
                returns e p)) /\
  (forall log, snd run = Ok log ->
     log = flat_map (rows_of estimator_name resultsSummary scores_of metrics step)
                    estimators) /\
  (forall err, snd run = Raise err ->
     exists e p, In e estimators /\ In p (sweep resultsSummary metrics step) /\
       cross_validate e (top_features resultsSummary (snd p)) nFolds (fst p)
       = Raise err).
Proof.
  intros run. subst run. rewrite featureSelectorCrossVal_unfold.
  set (sw := sweep resultsSummary metrics step).
  destruct (first_failure (fun e => forallb (returnsb e) sw) estimators)
    as [Hall|(done & e & rest & -> & Hdone & He)].
  - (* every call returns *)
    assert (Hok : Forall (fun e => Forall (succeeds cross_validate nFolds resultsSummary
                                             scores_of e) sw) estimators).
    { apply Forall_forall. intros e He. apply Forall_forall. intros p Hp.
      apply returnsb_succeeds. rewrite forallb_forall in Hall.
      specialize (Hall e He). rewrite forallb_forall in Hall. auto. }
    rewrite estimators_ok with (scores := scores_of) by assumption.
    cbn [snd fst update self_cvSummary app]. split; [|split].
    + split; [|intros _; eexists; reflexivity].
      intros _ e p He Hp. apply returnsb_returns.
      rewrite forallb_forall in Hall. specialize (Hall e He).
      rewrite forallb_forall in Hall. auto.
    + intros log E. now inversion E.
    + intros err E. discriminate.
  - (* a first call raises *)
    destruct (first_failure (returnsb e) sw) as [Hall|(pre & p & post & Hsw & Hpre & Hp)].
    { rewrite Hall in He. discriminate. }
    destruct (returnsb_raises _ _ Hp) as (err & Herr).
    assert (Hdone' : Forall (fun e => Forall (succeeds cross_validate nFolds resultsSummary
                                                scores_of e) sw) done).
    { apply Forall_forall. intros e' He'. apply Forall_forall. intros p' Hp'.
      apply returnsb_succeeds. rewrite forallb_forall in Hdone.
      specialize (Hdone e' He'). rewrite forallb_forall in Hdone. auto. }
    assert (Hpre' : Forall (succeeds cross_validate nFolds resultsSummary scores_of e) pre).
    { apply Forall_forall. intros p' Hp'. apply returnsb_succeeds.
      rewrite forallb_forall in Hpre. auto. }
    rewrite estimators_raise
      with (scores := scores_of) (pre := pre) (p := p) (post := post) (err := err)
      by assumption.
    cbn [snd]. split; [|split].
    + split; [intros [log E]; discriminate|].
      intros H. exfalso.
      assert (Hr : returns e p).
      { apply H; [apply in_or_app; right; now left|].
        fold sw. rewrite Hsw. apply in_or_app. right. now left. }
      destruct Hr as [sc Hsc]. congruence.
    + intros log E. discriminate.
    + intros err' E. inversion E; subst err'. exists e, p.
      split; [apply in_or_app; right; now left|].
      split; [fold sw; rewrite Hsw; apply in_or_app; right; now left | exact Herr].
Qed.

End Outcome.

(* ================================================================== *)
(** * featureSelectorCrossVal: what it leaves alone; odd steps *)
(* ================================================================== *)

Section Frame.
Context {S : Sorter}.
Variable estimator : Type.
Variable estimator_name : estimator -> string.
Variable cross_validate : estimator -> list string -> Z -> string -> result cv_scores.

(** [s'] differs from [s] by its log and by further calls only. *)
Definition extends (s s' : state estimator) : Prop :=
  self_estimators s' = self_estimators s /\
  self_resultsSummary s' = self_resultsSummary s /\
  exists calls, cv_calls s' = cv_calls s ++ calls.

Lemma extends_refl s : extends s s.
Proof. repeat split. exists []. now rewrite app_nil_r. Qed.

Lemma extends_trans s1 s2 s3 : extends s1 s2 -> extends s2 s3 -> extends s1 s3.
Proof.
  intros (E1 & R1 & c1 & C1) (E2 & R2 & c2 & C2). repeat split; try congruence.
  exists (c1 ++ c2). now rewrite C2, C1, app_assoc.
Qed.

Lemma bind_extends {A B} (m : M estimator A) (k : A -> M estimator B) s :
  extends s (fst (m s)) ->
  (forall a s', extends s' (fst (k a s'))) ->
  extends s (fst (bind m k s)).
Proof.
  intros Hm Hk. unfold bind. destruct (m s) as [s' [a|e]]; [|exact Hm].
  eapply extends_trans; [exact Hm | apply Hk].
Qed.

Lemma for_each_extends {A B} (l : list A) (body : B -> A -> M estimator B) :
  (forall acc x s, extends s (fst (body acc x s))) ->
  forall acc s, extends s (fst (for_each l acc body s)).
Proof.
  intros Hb. induction l as [|x l IH]; intros acc s; cbn [for_each].
  - apply extends_refl.
  - apply bind_extends; [apply Hb | intros; apply IH].
Qed.

Lemma set_cvSummary_extends cv (s : state estimator) :
  extends s (fst (set_cvSummary cv s)).
Proof. repeat split. exists []. simpl. now rewrite app_nil_r. Qed.

Lemma evaluate_extends t e nFolds metric acc i s :
  extends s (fst (evaluate estimator_name cross_validate t e nFolds metric acc i s)).
Proof.
  destruct acc as [cv rowIx]. unfold evaluate, bind, call_cross_validate.
  destruct (cross_validate e (top_features t i) nFolds metric);
    repeat split; now eexists.
Qed.

Lemma estimator_body_extends nFolds t metrics step u e s :
  extends s (fst (estimator_body estimator_name cross_validate nFolds t metrics step u e s)).
Proof.
  unfold estimator_body. apply bind_extends.
  - apply for_each_extends. intros acc metric s0. apply bind_extends.
    + unfold np_arange. destruct (Py.arange 0 (shape0 t) step); apply extends_refl.
    + intros indices s1. apply for_each_extends. intros. apply evaluate_extends.
  - intros acc s0. apply bind_extends; [apply extends_refl|].
    intros cvs s1. apply set_cvSummary_extends.
Qed.

(** X2.  Whatever the arguments and whatever happens, featureSelectorCrossVal
    changes nothing of the object but [cvSummary]: [estimators] and
    [resultsSummary] are as before, and no call of [cross_validate]
    recorded earlier is lost. *)
Theorem crossval_leaves_inputs_alone metrics t ests nFolds step (s : state estimator) :
  extends s (fst (featureSelectorCrossVal estimator_name cross_validate metrics
                    t ests nFolds step s)).
Proof.
  unfold featureSelectorCrossVal.
  apply bind_extends; [destruct t; apply extends_refl|]. intros t' s1.
  apply bind_extends; [destruct ests; apply extends_refl|]. intros ests' s2.
  apply bind_extends; [apply set_cvSummary_extends|]. intros _ s3.
  apply bind_extends; [|intros; apply extends_refl].
  apply for_each_extends. intros [] e s4.
  apply (estimator_body_extends nFolds t' metrics step tt e s4).
Qed.

(** X3.  With [step = 0], at least one estimator and at least one metric,
    [np.arange] refuses the step: the function raises before any
    cross-validation, leaving an empty [cvSummary]. *)
Theorem crossval_zero_step e ests m metrics t nFolds (s : state estimator) :
  1 <= shape0 t ->
  featureSelectorCrossVal estimator_name cross_validate (m :: metrics)
    (Some t) (Some (e :: ests)) nFolds 0 s
  = (update s [] (cv_calls s), Raise ArangeError).
Proof. intros _. reflexivity. Qed.

(** X4.  With a negative step [np.arange(0, F, step)] is empty: nothing is
    cross-validated and the function returns an empty log. *)
Theorem crossval_negative_step metrics t (ests : list estimator) nFolds step
    (s : state estimator) :
  step < 0 ->
  featureSelectorCrossVal estimator_name cross_validate metrics
    (Some t) (Some ests) nFolds step s
  = (update s [] (cv_calls s), Ok []).
Proof.
  intros Hneg. rewrite featureSelectorCrossVal_unfold.
  assert (Har : Py.arange 0 (shape0 t) step = Some []).
  { unfold Py.arange, Py.arange_len.
    destruct (Z.eqb_spec step 0); [lia|]. destruct (Z.ltb_spec 0 step); [lia|].
    replace (Z.max 0 ((0 - shape0 t + - step - 1) / - step)) with 0; [reflexivity|].
    assert ((0 - shape0 t + - step - 1) / - step <= 0); [|lia].
    unfold shape0.
    destruct (Z.eq_dec (0 - Z.of_nat (List.length t) + - step - 1) 0) as [->|Hne].
    { now rewrite Z.div_0_l by lia. }
    assert ((0 - Z.of_nat (List.length t) + - step - 1) / - step < 1); [|lia].
    apply Z.div_lt_upper_bound; lia. }
  assert (Hmetrics : forall e acc (s0 : state estimator),
            for_each metrics acc
              (fun acc metric =>
                 bind (np_arange (estimator:=estimator) 0 (shape0 t) step)
                   (fun indices =>
                      for_each indices acc
                        (evaluate estimator_name cross_validate t e nFolds metric))) s0
            = (s0, Ok acc)).
  { intros e. induction metrics as [|m ms IH]; intros acc s0; [reflexivity|].
    cbn [for_each]. unfold bind at 1. unfold bind at 1, np_arange at 1.
    rewrite Har. cbn [ret for_each]. apply IH. }
  assert (H : forall s0 : state estimator,
            self_cvSummary s0 = [] ->
            for_each ests tt
              (estimator_body estimator_name cross_validate nFolds t metrics step) s0
            = (s0, Ok tt)).
  { induction ests as [|e es IH]; intros s0 Hs0; [reflexivity|].
    cbn [for_each]. unfold bind at 1.
    replace (estimator_body estimator_name cross_validate nFolds t metrics step tt e s0)
      with (s0, @Ok unit tt).
    - now apply IH.
    - unfold estimator_body. unfold bind at 1. rewrite Hmetrics.
      unfold bind, gets, set_cvSummary. cbn [fst].
      rewrite app_nil_r. destruct s0; simpl in *. now subst. }
  now rewrite H.
Qed.

End Frame.

(* ================================================================== *)
(** * Progressive elimination: what each step drops *)
(* ================================================================== *)

Section Elimination.
Context {S : Sorter}.

Lemma index_firstn n (t : summary_frame) : index (firstn n t) = firstn n (index t).
Proof. unfold index. symmetry. apply firstn_map. Qed.

Lemma strongly_sorted_split {A} (R : A -> A -> Prop) (l1 l2 : list A) :
  StronglySorted R (l1 ++ l2) ->
  forall a b, In a l1 -> In b l2 -> R a b.
Proof.
  induction l1 as [|x l1 IH]; intros Hs a b Ha Hb; [contradiction|].
  simpl in Hs. inversion Hs as [|? ? Hs' Hall]; subst.
  destruct Ha as [<-|Ha].
  - rewrite Forall_forall in Hall. apply Hall. apply in_or_app. now right.
  - now apply IH.
Qed.

(** X5.  At index [i] the sweep keeps the first [F - i] rows of the table sorted
    by 'average' and drops the last [i]: the rows are all there, and no
    dropped row has a smaller average than a kept one. *)
Theorem dropped_are_least_important (resultsSummary : summary_frame) (i : Z) :
  0 <= i -> i < shape0 resultsSummary ->
  let F := shape0 resultsSummary in
  let sorted := sort_values average true resultsSummary in
  let kept := firstn (Z.to_nat (F - i)) sorted in
  let dropped := skipn (Z.to_nat (F - i)) sorted in
  top_features resultsSummary i = index kept /\
  shape0 dropped = i /\
  Permutation resultsSummary (kept ++ dropped) /\
  (forall a b, In a kept -> In b dropped -> (average a <= average b)%Q).
Proof.
  intros H0 HF F sorted kept dropped.
  assert (Hlen : shape0 sorted = F).
  { unfold shape0, sorted. now rewrite sort_values_length. }
  split; [|split; [|split]].
  - unfold kept. rewrite index_firstn. destruct (Z.eq_dec i 0) as [->|Hi].
    + rewrite top_features_0. unfold ranked. fold sorted.
      rewrite firstn_all2; [reflexivity|].
      unfold index. rewrite length_map. unfold shape0 in *. lia.
    + rewrite top_features_pos by lia. reflexivity.
  - unfold dropped, shape0 in *. rewrite length_skipn. lia.
  - unfold kept, dropped. rewrite firstn_skipn. apply sort_values_perm.
  - apply strongly_sorted_split with (R := ordered average true).
    unfold kept, dropped. rewrite firstn_skipn.
    apply sorted_strongly, sort_values_sorted.
Qed.

(** X6.  The subsets are nested: a later subset is the beginning of every
    earlier one. *)
Theorem subsets_are_nested (resultsSummary : summary_frame) (i j : Z) :
  0 <= i -> i <= j -> j < shape0 resultsSummary ->
  top_features resultsSummary j
  = firstn (Z.to_nat (shape0 resultsSummary - j)) (top_features resultsSummary i).
Proof.
  intros H0 Hij HF.
  assert (Hj : top_features resultsSummary j
               = firstn (Z.to_nat (shape0 resultsSummary - j)) (ranked resultsSummary)).
  { destruct (Z.eq_dec j 0) as [->|Hj].
    - rewrite top_features_0, firstn_all2; [reflexivity|].
      pose proof (ranked_length resultsSummary). unfold shape0 in *. lia.
    - apply top_features_pos; lia. }
  rewrite Hj. destruct (Z.eq_dec i 0) as [->|Hi].
  - now rewrite top_features_0.
  - rewrite top_features_pos by lia. rewrite firstn_firstn. f_equal. lia.
Qed.

End Elimination.

(* ================================================================== *)
(** * featuresUsedSummary and featureSelectorResultsPlot: when they raise *)
(* ================================================================== *)

Lemma for_result_Raise_inv {A B} (body : B -> A -> result B) (l : list A) :
  forall acc err,
    for_result l acc body = Raise err ->
    exists x a, In x l /\ body a x = Raise err.
Proof.
  induction l as [|x l IH]; intros acc err H; [discriminate|].
  cbn [for_result] in H. destruct (body acc x) as [acc'|e] eqn:E.
  - destruct (IH _ _ H) as (y & a & Hy & Hb). exists y, a. split; [now right | exact Hb].
  - inversion H; subst. exists x, acc. split; [now left | exact E].
Qed.

Lemma for_result_Ok_inv {A B} (body : B -> A -> result B) (l : list A) :
  forall acc r,
    for_result l acc body = Ok r ->
    forall x, In x l -> exists a a', body a x = Ok a'.
Proof.
  induction l as [|y l IH]; intros acc r H x Hx; [contradiction|].
  cbn [for_result] in H. destruct (body acc y) as [acc'|e] eqn:E; [|discriminate].
  destruct Hx as [<-|Hx]; [now exists acc, acc' | eapply IH; eassumption].
Qed.

Section Raises.
Context {S : Sorter}.

Lemma sort_values_nil {A} (key : A -> Q) asc : sort_values key asc [] = [].
Proof.
  apply Permutation_nil. apply sort_values_perm.
Qed.

Lemma best_label_cases (cv : cv_frame) :
  (cv = [] /\ best_label cv = Raise IndexError) \/
  (cv <> [] /\ exists k, best_label cv = Ok k).
Proof.
  destruct cv as [|r cv].
  - left. split; [reflexivity|]. unfold best_label, best_rows.
    now rewrite sort_values_nil.
  - right. split; [discriminate|].
    destruct (@best_label_max S (r :: cv) ltac:(discriminate)) as (r' & _ & H & _).
    now exists (fst r').
Qed.

Lemma reset_index_nil (cv : cv_frame) : reset_index cv = [] <-> cv = [].
Proof.
  split; [|intros ->; reflexivity].
  intros H. apply (f_equal (map snd)) in H. rewrite reset_index_rows in H.
  destruct cv; [reflexivity | discriminate].
Qed.

Lemma add_estimator_cases resultsSummary cvSummary metric df e :
  (select_rows cvSummary metric e = [] /\
   add_estimator resultsSummary cvSummary metric df e = Raise IndexError) \/
  (select_rows cvSummary metric e <> [] /\
   exists df', add_estimator resultsSummary cvSummary metric df e = Ok df').
Proof.
  unfold add_estimator, numDropped_of.
  destruct (best_label_cases (reset_index (select_rows cvSummary metric e)))
    as [[Hnil ->]|[Hne (k & ->)]].
  - left. split; [now apply reset_index_nil | reflexivity].
  - right. split; [|eexists; reflexivity].
    intros H. apply Hne. now apply reset_index_nil.
Qed.

(** X9.  featuresUsedSummary returns a table exactly when every estimator of
    the log has rows for the metric; otherwise line 450 indexes an empty
    array and the function raises IndexError. *)
Theorem usage_table_returns_iff (resultsSummary : summary_frame)
    (cvSummary : cv_frame) (metric : string) :
  ((exists df, featuresUsedSummary resultsSummary cvSummary metric = Ok df) <->
   (forall e, In e (estimator_names cvSummary) ->
              select_rows cvSummary metric e <> [])) /\
  (forall err, featuresUsedSummary resultsSummary cvSummary metric = Raise err ->
               err = IndexError).
Proof.
  unfold featuresUsedSummary.
  destruct (for_result (estimator_names cvSummary) _
              (add_estimator resultsSummary cvSummary metric)) as [df|err] eqn:E.
  - split; [|discriminate]. split; [|intros _; eexists; reflexivity].
    intros _ e He.
    destruct (for_result_Ok_inv _ _ _ E e He) as (a & a' & Ha).
    destruct (add_estimator_cases resultsSummary cvSummary metric a e)
      as [[_ H]|[H _]]; [congruence | exact H].
  - destruct (for_result_Raise_inv _ _ _ E) as (e & a & He & Ha).
    destruct (add_estimator_cases resultsSummary cvSummary metric a e)
      as [[Hnil H]|[_ [df' H]]]; [|congruence].
    split.
    + split; [intros [df H']; discriminate|].
      intros Hall. exfalso. exact (Hall e He Hnil).
    + intros err' E'. inversion E'; subst. congruence.
Qed.

Lemma plot_one_cases resultsSummary cvSummary metric e :
  1 <= shape0 resultsSummary ->
  (select_rows cvSummary metric e = [] /\
   plot_one resultsSummary cvSummary metric e = Raise ZeroDivisionError) \/
  (select_rows cvSummary metric e <> [] /\
   exists c, plot_one resultsSummary cvSummary metric e = Ok c /\
             chart_estimator c = e).
Proof.
  intros HF. unfold plot_one.
  destruct (select_rows cvSummary metric e) as [|r cv] eqn:Esel.
  - left. split; [reflexivity|]. reflexivity.
  - right. split; [discriminate|].
    assert (Hiters : 1 <= shape0 (r :: cv)) by (apply nonempty_shape0; discriminate).
    destruct (plot_keys HF Hiters) as (step & keys & -> & Hpos & -> & Hk).
    assert (Hrows : map snd (set_index keys (r :: cv)) = map snd (r :: cv)).
    { apply combine_rows. subst keys. rewrite length_map, length_seq.
      unfold shape0. now rewrite Nat2Z.id. }
    assert (Hne : set_index keys (r :: cv) <> []).
    { apply (same_rows_nonempty Hrows). discriminate. }
    destruct (best_label_max Hne) as (r' & _ & -> & -> & _).
    eexists. split; reflexivity.
Qed.

Lemma charts_names resultsSummary cvSummary metric (l : list string) :
  forall acc charts,
    for_result l acc
      (fun charts estimator =>
         match plot_one resultsSummary cvSummary metric estimator with
         | Ok c => Ok (charts ++ [c])
         | Raise e => Raise e
         end) = Ok charts ->
    1 <= shape0 resultsSummary ->
    map chart_estimator charts = map chart_estimator acc ++ l.
Proof.
  induction l as [|e l IH]; intros acc charts H HF; cbn [for_result] in H.
  - inversion H. now rewrite app_nil_r.
  - destruct (plot_one_cases resultsSummary cvSummary metric e HF)
      as [[_ Hr]|[_ (c & Hc & Hn)]]; rewrite ?Hr, ?Hc in H; [discriminate|].
    rewrite (IH _ _ H HF), map_app. cbn [map]. rewrite Hn, <- app_assoc. reflexivity.
Qed.

(** X10.  For a table with at least one feature, featureSelectorResultsPlot
    draws its charts exactly when every estimator of the log has rows for
    the metric, one chart per estimator in order of first appearance;
    otherwise line 373 divides by zero rows and the function raises
    ZeroDivisionError. *)
Theorem plot_returns_iff (resultsSummary : summary_frame)
    (cvSummary : cv_frame) (metric : string) :
  1 <= shape0 resultsSummary ->
  ((exists charts, featureSelectorResultsPlot resultsSummary cvSummary metric = Ok charts)
   <-> (forall e, In e (estimator_names cvSummary) ->
                  select_rows cvSummary metric e <> [])) /\
  (forall charts, featureSelectorResultsPlot resultsSummary cvSummary metric = Ok charts ->
                  map chart_estimator charts = estimator_names cvSummary) /\
  (forall err, featureSelectorResultsPlot resultsSummary cvSummary metric = Raise err ->
               err = ZeroDivisionError).
Proof.
  intros HF. unfold featureSelectorResultsPlot.
  destruct (for_result (estimator_names cvSummary) [] _) as [charts|err] eqn:E.
  - split; [|split; [|discriminate]].
    + split; [|intros _; eexists; reflexivity].
      intros _ e He.
      destruct (for_result_Ok_inv _ _ _ E e He) as (a & a' & Ha).
      destruct (plot_one_cases resultsSummary cvSummary metric e HF)
        as [[_ H]|[H _]]; [|exact H].
      rewrite H in Ha. discriminate.
    + intros charts' E'. inversion E'; subst.
      now rewrite (charts_names _ _ _ _ _ E HF).
  - destruct (for_result_Raise_inv _ _ _ E) as (e & a & He & Ha).
    destruct (plot_one_cases resultsSummary cvSummary metric e HF)
      as [[Hnil H]|[_ (c & H & _)]]; rewrite H in Ha; [|discriminate].
    split; [|split; [discriminate|]].
    + split; [intros [ch H']; discriminate|].
      intros Hall. exfalso. exact (Hall e He Hnil).
    + intros err' E'. inversion E'; subst. congruence.
Qed.

(** X11.  On an empty log there is no estimator: the usage table has the rows of
    [resultsSummary] and a "count" column of zeros only, and no chart is
    drawn. *)
Theorem empty_log_tables (resultsSummary : summary_frame) (metric : string) :
  featuresUsedSummary resultsSummary [] metric
  = Ok {| u_index := index resultsSummary;
          u_columns := [("count"%string, map (fun _ => Int 0) (index resultsSummary))] |}
  /\ featureSelectorResultsPlot resultsSummary [] metric = Ok [].
Proof.
  split; [|reflexivity].
  unfold featuresUsedSummary, fillna, count_axis1. cbn.
  do 4 f_equal. rewrite map_map.
  rewrite <- (map_nth_seq (fun _ => Int 0) (index resultsSummary) ""%string).
  reflexivity.
Qed.

End Raises.

(* ================================================================== *)
(** * What featureSelectorResultsPlot reads off a log of the sweep *)
(* ================================================================== *)

Lemma combine_map_seq {A B} (f : nat -> A) (g : nat -> B) (n : nat) : forall a,
  combine (map f (seq a n)) (map g (seq a n)) = map (fun k => (f k, g k)) (seq a n).
Proof.
  induction n as [|n IH]; intros a; simpl; [reflexivity|]. now rewrite IH.
Qed.

Section PlotRecovery.
Context {S : Sorter}.
Variable estimator : Type.
Variable estimator_name : estimator -> string.
Variable scores : estimator -> string -> Z -> cv_scores.
Variable resultsSummary : summary_frame.
Variable metrics : list string.
Variable step : Z.
Variable estimators : list estimator.

Hypothesis step_pos : 1 <= step.
Hypothesis has_features : 1 <= shape0 resultsSummary.
Hypothesis distinct_estimators : NoDup estimators.
Hypothesis distinct_names :
  forall e e', In e estimators -> In e' estimators ->
               estimator_name e = estimator_name e' -> e = e'.
Hypothesis distinct_metrics : NoDup metrics.

(** X8.  What featureSelectorResultsPlot reports for a pair of the sweep.  It
    recovers a step [step' = ceil(F / iters)] that is at least 1 and at
    most the step of the sweep, and equal to it when the step divides the
    number of features.  For a best record of the pair, at position [p]
    and so evaluated at index [p * step], the chart reports [p * step']
    dropped features and prints the top [F - p * step'] features: never
    more dropped features than were dropped, and the right ones when
    [step' = step]. *)
Theorem plot_reads_position e m :
  In e estimators -> In m metrics ->
  let F := shape0 resultsSummary in
  let log := sweep_log estimator_name scores resultsSummary metrics step estimators in
  exists (p : nat) (step' : Z),
    ceil_div F (shape0 (select_rows log m (estimator_name e))) = Ok step' /\
    1 <= step' <= step /\
    ((exists q, F = q * step) -> step' = step) /\
    In (Z.of_nat p * step) (PyFacts.sweep_indices F step) /\
    plot_one resultsSummary log m (estimator_name e)
    = Ok {| chart_estimator := estimator_name e;
            chart_numDropped := Z.of_nat p * step';
            chart_score :=
              Validation_score
                (record estimator_name scores e (m, Z.of_nat p * step));
            chart_featuresUsed := top_features resultsSummary (Z.of_nat p * step') |} /\
    (forall i, In i (PyFacts.sweep_indices F step) ->
       (Validation_score (record estimator_name scores e (m, i))
        <= Validation_score
             (record estimator_name scores e (m, (Z.of_nat p * step)%Z)))%Q).
Proof.
  intros He Hm F log.
  set (cv := select_rows log m (estimator_name e)).
  set (g := fun p : nat => record estimator_name scores e (m, Z.of_nat p * step)).
  set (K := PyFacts.ceil_quot F step).
  assert (HK1 : 1 <= K) by (apply PyFacts.ceil_quot_pos; lia).
  assert (HKF : F <= K * step).
  { destruct (Z_lt_le_dec (K * step) F) as [Hlt|]; [|assumption].
    apply PyFacts.ceil_quot_lt in Hlt; [|lia]. unfold K in *. lia. }
  assert (Hrows : map snd cv = map g (seq 0 (Z.to_nat K))).
  { unfold cv, log. rewrite pair_rows by assumption.
    unfold PyFacts.sweep_indices. fold F K. now rewrite map_map. }
  assert (Hiters : shape0 cv = K).
  { unfold shape0. rewrite <- (length_map snd cv), Hrows, length_map, length_seq. lia. }
  set (step' := (F + K - 1) / K).
  assert (Hstep : ceil_div F (shape0 cv) = Ok step').
  { unfold ceil_div. rewrite Hiters. destruct (Z.eqb_spec K 0); [lia | reflexivity]. }
  assert (Hlo : 1 <= step').
  { apply (PyFacts.ceil_quot_pos (F := F) (step := K)); lia. }
  assert (Hhi : step' <= step).
  { assert (step' < step + 1); [|lia]. apply Z.div_lt_upper_bound; nia. }
  assert (Hkeys : Py.arange 0 (shape0 cv * step') step'
                  = Some (map (fun k => Z.of_nat k * step') (seq 0 (Z.to_nat K)))).
  { rewrite PyFacts.arange_from_0 by lia. unfold PyFacts.sweep_indices.
    rewrite Hiters.
    replace (PyFacts.ceil_quot (K * step') step') with K; [reflexivity|].
    unfold PyFacts.ceil_quot.
    replace (K * step' + step' - 1) with (step' - 1 + K * step') by lia.
    rewrite Z.div_add, Z.div_small by lia. lia. }
  assert (Hcv : set_index (map (fun k => Z.of_nat k * step') (seq 0 (Z.to_nat K))) cv
                = map (fun k => (Z.of_nat k * step', g k)) (seq 0 (Z.to_nat K))).
  { unfold set_index. rewrite Hrows. apply combine_map_seq. }
  assert (Hne : map (fun k => (Z.of_nat k * step', g k)) (seq 0 (Z.to_nat K)) <> []).
  { destruct (Z.to_nat K) eqn:E; [lia | discriminate]. }
  destruct (best_label_max Hne) as (r & Hin & Hlab & Hsc & Hmax).
  apply in_map_iff in Hin. destruct Hin as (p & <- & Hp). exists p, step'.
  assert (Hidx : forall k, In k (seq 0 (Z.to_nat K)) ->
                           In (Z.of_nat k * step) (PyFacts.sweep_indices F step)).
  { intros k Hk. unfold PyFacts.sweep_indices. fold K.
    apply in_map_iff. now exists k. }
  split; [exact Hstep|]. split; [lia|]. split; [|split; [now apply Hidx | split]].
  - intros [q Hq]. unfold step'.
    assert (HKq : K = q).
    { unfold K, PyFacts.ceil_quot. rewrite Hq.
      replace (q * step + step - 1) with (step - 1 + q * step) by lia.
      rewrite Z.div_add, Z.div_small by lia. lia. }
    rewrite HKq, Hq. replace (q * step + q - 1) with (q - 1 + step * q) by lia.
    rewrite Z.div_add, Z.div_small by lia. lia.
  - unfold plot_one. fold log cv F. rewrite Hstep, Hkeys, Hcv, Hlab, Hsc.
    cbn [fst snd validation]. do 2 f_equal.
    unfold featuresUsed, top_features.
    destruct (Z.ltb_spec 0 (Z.of_nat p * step')), (Z.eqb_spec (Z.of_nat p * step') 0);
      try reflexivity; lia.
  - intros i Hi. unfold PyFacts.sweep_indices in Hi. fold K in Hi.
    apply in_map_iff in Hi. destruct Hi as (k & <- & Hk).
    apply (Hmax (Z.of_nat k * step', g k)). apply in_map_iff. now exists k.
Qed.

End PlotRecovery.

(* ================================================================== *)
(** * The tables of a sweep's own log *)
(* ================================================================== *)

Lemma unique_In (x : string) (l : list string) : In x (Py.unique l) <-> In x l.
Proof.
  induction l as [|y l IH]; simpl; [tauto|]. rewrite filter_In, IH. split.
  - intros [H|[H _]]; auto.
  - intros [H|H]; [now left|].
    destruct (String.eqb_spec y x) as [E|E]; [now left | right].
    split; [exact H | reflexivity].
Qed.

Lemma nonempty_In {A} (l : list A) : l <> [] -> exists x, In x l.
Proof. destruct l as [|x l]; [congruence|]. intros _. exists x. now left. Qed.

Section SweepTables.
Context {S : Sorter}.
Variable estimator : Type.
Variable estimator_name : estimator -> string.
Variable scores : estimator -> string -> Z -> cv_scores.
Variable resultsSummary : summary_frame.
Variable metrics : list string.
Variable step : Z.
Variable estimators : list estimator.

Hypothesis step_pos : 1 <= step.
Hypothesis has_features : 1 <= shape0 resultsSummary.

Lemma sweep_log_rows r :
  In r (sweep_log estimator_name scores resultsSummary metrics step estimators) ->
  exists e p, In e estimators /\ In p (sweep resultsSummary metrics step) /\
              snd r = record estimator_name scores e p.
Proof.
  unfold sweep_log. intros Hr. apply in_flat_map in Hr. destruct Hr as (e & He & Hr).
  apply (in_map snd) in Hr. unfold rows_of in Hr. rewrite label_from_map_snd in Hr.
  apply in_map_iff in Hr. destruct Hr as (p & Hp & Hin). now exists e, p.
Qed.

Lemma sweep_log_has e m :
  In e estimators -> In m metrics ->
  exists r,
    In r (sweep_log estimator_name scores resultsSummary metrics step estimators) /\
    snd r = record estimator_name scores e (m, 0).
Proof.
  intros He Hm.
  assert (Hp : In (m, 0) (sweep resultsSummary metrics step)).
  { unfold sweep. apply in_prod; [exact Hm|].
    apply PyFacts.sweep_indices_In; [lia|]. exists 0%nat. lia. }
  assert (Hrow : In (record estimator_name scores e (m, 0))
                    (map snd (rows_of estimator_name resultsSummary scores metrics step e))).
  { unfold rows_of. rewrite label_from_map_snd. now apply in_map. }
  apply in_map_iff in Hrow. destruct Hrow as (r & Hr & Hin).
  exists r. split; [|exact Hr]. unfold sweep_log. apply in_flat_map. now exists e.
Qed.

Lemma sweep_log_selected name m :
  In name (estimator_names
             (sweep_log estimator_name scores resultsSummary metrics step estimators)) ->
  In m metrics ->
  select_rows (sweep_log estimator_name scores resultsSummary metrics step estimators)
              m name <> [].
Proof.
  intros Hname Hm. unfold estimator_names in Hname.
  apply (proj1 (unique_In _ _)) in Hname.
  apply in_map_iff in Hname. destruct Hname as (r & <- & Hr).
  destruct (sweep_log_rows r Hr) as (e & p & He & _ & Er).
  destruct (sweep_log_has e m He Hm) as (r' & Hr' & Er').
  assert (Hin : In r' (select_rows
                         (sweep_log estimator_name scores resultsSummary metrics step
                            estimators) m (Estimator (snd r)))).
  { unfold select_rows. apply filter_In. split; [exact Hr'|].
    rewrite Er', Er. cbn [record Scoring Estimator fst].
    now rewrite !String.eqb_refl. }
  intros E. rewrite E in Hin. contradiction.
Qed.

Lemma sweep_log_unselected name m :
  ~ In m metrics ->
  select_rows (sweep_log estimator_name scores resultsSummary metrics step estimators)
              m name = [].
Proof.
  intros Hm. unfold select_rows. apply filter_none. intros r Hr.
  destruct (sweep_log_rows r Hr) as (e & p & _ & Hp & Er).
  rewrite Er. cbn [record Scoring]. apply andb_false_iff. left.
  apply String.eqb_neq. intros E. apply Hm. rewrite <- E.
  unfold sweep in Hp. destruct p as [m' i]. apply in_prod_iff in Hp. tauto.
Qed.

(** X12.  The log of a sweep without failures feeds both readers: for a metric
    of the sweep, featuresUsedSummary returns its table and
    featureSelectorResultsPlot its charts, one per estimator name.  For a
    metric that was not swept (and a log with rows), the first raises
    IndexError and the second ZeroDivisionError. *)
Theorem tables_of_a_sweep (m : string) :
  let log := sweep_log estimator_name scores resultsSummary metrics step estimators in
  (In m metrics ->
   (exists df, featuresUsedSummary resultsSummary log m = Ok df) /\
   (exists charts, featureSelectorResultsPlot resultsSummary log m = Ok charts /\
                   map chart_estimator charts = estimator_names log)) /\
  (~ In m metrics -> estimators <> [] -> metrics <> [] ->
   featuresUsedSummary resultsSummary log m = Raise IndexError /\
   featureSelectorResultsPlot resultsSummary log m = Raise ZeroDivisionError).
Proof.
  intros log. split.
  - intros Hm. split.
    + unfold featuresUsedSummary.
      destruct (for_result (estimator_names log) _
                  (add_estimator resultsSummary log m)) as [df|err] eqn:E;
        [eexists; reflexivity|].
      exfalso. destruct (for_result_Raise_inv _ _ _ E) as (name & a & Hname & Ha).
      destruct (add_estimator_cases resultsSummary log m a name)
        as [[Hnil _]|[_ [df' H]]]; [|congruence].
      exact (sweep_log_selected name m Hname Hm Hnil).
    + unfold featureSelectorResultsPlot.
      destruct (for_result (estimator_names log) [] _) as [charts|err] eqn:E.
      * exists charts. split; [reflexivity|].
        now rewrite (charts_names _ _ _ _ _ E has_features).
      * exfalso. destruct (for_result_Raise_inv _ _ _ E) as (name & a & Hname & Ha).
        destruct (plot_one_cases resultsSummary log m name has_features)
          as [[Hnil _]|[_ (c & H & _)]]; [|rewrite H in Ha; discriminate].
        exact (sweep_log_selected name m Hname Hm Hnil).
  - intros Hm Hests Hmetrics.
    assert (Hnames : estimator_names log <> []).
    { destruct (nonempty_In Hests) as [e He].
      destruct (nonempty_In Hmetrics) as [m0 Hm0].
      destruct (sweep_log_has e m0 He Hm0) as (r & Hr & _).
      intros E. assert (Hin : In (Estimator (snd r)) (estimator_names log)).
      { unfold estimator_names. apply (proj2 (unique_In _ _)).
        now apply (in_map (fun r : Z * cv_row => Estimator (snd r))). }
      rewrite E in Hin. contradiction. }
    destruct (estimator_names log) as [|name names] eqn:En; [congruence|].
    split.
    + unfold featuresUsedSummary. rewrite En. cbn [for_result].
      destruct (add_estimator_cases resultsSummary log m
                  {| u_index := index resultsSummary; u_columns := [] |} name)
        as [[_ ->]|[Hne _]]; [reflexivity|].
      exfalso. apply Hne. now apply sweep_log_unselected.
    + unfold featureSelectorResultsPlot. rewrite En. cbn [for_result].
      destruct (plot_one_cases resultsSummary log m name has_features)
        as [[_ ->]|[Hne _]]; [reflexivity|].
      exfalso. apply Hne. now apply sweep_log_unselected.
Qed.

End SweepTables.

(* ================================================================== *)
(** * Ranks *)
(* ================================================================== *)

Lemma filter_length_le {A} (p : A -> bool) (l : list A) :
  (List.length (filter p l) <= List.length l)%nat.
Proof.
  induction l as [|x l IH]; simpl; [lia|]. destruct (p x); simpl; lia.
Qed.

Lemma filter_length_mono {A} (p q : A -> bool) (l : list A) :
  (forall x, p x = true -> q x = true) ->
  (List.length (filter p l) <= List.length (filter q l))%nat.
Proof.
  intros Hpq. induction l as [|x l IH]; simpl; [lia|].
  destruct (p x) eqn:Ep.
  - rewrite (Hpq x Ep). simpl. lia.
  - destruct (q x); simpl; lia.
Qed.

Lemma filter_length_strict {A} (p q : A -> bool) (l : list A) (y : A) :
  (forall x, p x = true -> q x = true) ->
  In y l -> q y = true -> p y = false ->
  (List.length (filter p l) < List.length (filter q l))%nat.
Proof.
  intros Hpq. induction l as [|x l IH]; intros Hin Hq Hp; [contradiction|].
  simpl. destruct Hin as [->|Hin].
  - rewrite Hp, Hq. simpl.
    pose proof (filter_length_mono p q l Hpq). lia.
  - specialize (IH Hin Hq Hp). destruct (p x) eqn:Ep.
    + rewrite (Hpq x Ep). simpl. lia.
    + destruct (q x); simpl; lia.
Qed.

Lemma no_later_refl asc v : no_later asc v v = true.
Proof. unfold no_later. destruct asc; apply Qle_bool_iff, Qle_refl. Qed.

(** [v] comes strictly before [w] in the chosen order. *)
Definition strictly_before (ascending : bool) (v w : Q) : Prop :=
  if ascending then (v < w)%Q else (w < v)%Q.

Lemma no_later_trans asc v w x :
  strictly_before asc v w -> no_later asc v x = true -> no_later asc w x = true.
Proof.
  unfold strictly_before, no_later. destruct asc; intros Hvw H;
    apply Qle_bool_iff in H; apply Qle_bool_iff.
  - apply Qle_trans with v; [exact H | now apply Qlt_le_weak].
  - apply Qle_trans with v; [now apply Qlt_le_weak | exact H].
Qed.

Lemma no_later_strict asc v w :
  strictly_before asc v w -> no_later asc v w = false.
Proof.
  unfold strictly_before, no_later. intros H.
  destruct asc; (destruct (Qle_bool _ _) eqn:E; [|reflexivity]);
    apply Qle_bool_iff in E; exfalso; exact (Qlt_not_le _ _ H E).
Qed.

Lemma inject_Z_nat_le (a b : nat) : (a <= b)%nat -> (inject_Z (Z.of_nat a) <= inject_Z (Z.of_nat b))%Q.
Proof. intros H. rewrite <- Zle_Qle. lia. Qed.

Lemma inject_Z_nat_lt (a b : nat) : (a < b)%nat -> (inject_Z (Z.of_nat a) < inject_Z (Z.of_nat b))%Q.
Proof. intros H. rewrite <- Zlt_Qlt. lia. Qed.

Lemma rank_max_length asc l : List.length (rank_max asc l) = List.length l.
Proof. unfold rank_max. apply length_map. Qed.

(** A rank lies between 1 and the number of values. *)
Definition in_range (n : Z) (r : Q) : Prop := (1 <= r)%Q /\ (r <= inject_Z n)%Q.

Lemma rank_of_bounds asc (l : list Q) (v : Q) :
  In v l -> in_range (shape0 l) (rank_of asc l v).
Proof.
  intros Hv. unfold in_range, rank_of, shape0. split.
  - change 1%Q with (inject_Z (Z.of_nat 1)). apply inject_Z_nat_le.
    assert (Hin : In v (filter (no_later asc v) l))
      by (apply filter_In; split; [exact Hv | apply no_later_refl]).
    destruct (filter (no_later asc v) l); [contradiction | simpl; lia].
  - apply inject_Z_nat_le, filter_length_le.
Qed.


Lemma rank_count_inj asc (L : list Q) (v w : Q) :
  In v L -> In w L -> ~ (v == w)%Q ->
  List.length (filter (no_later asc v) L) <> List.length (filter (no_later asc w) L).
Proof.
  intros Hv Hw Hne.
  assert (Hcases : strictly_before asc v w \/ strictly_before asc w v).
  { unfold strictly_before. destruct (Q_dec v w) as [[H|H]|H]; [| |contradiction];
      destruct asc; auto. }
  destruct Hcases as [H|H].
  - assert ((List.length (filter (no_later asc v) L)
             < List.length (filter (no_later asc w) L))%nat); [|lia].
    apply filter_length_strict with (y := w);
      [intros x; now apply no_later_trans | exact Hw | apply no_later_refl
      | now apply no_later_strict].
  - assert ((List.length (filter (no_later asc w) L)
             < List.length (filter (no_later asc v) L))%nat); [|lia].
    apply filter_length_strict with (y := v);
      [intros x; now apply no_later_trans | exact Hv | apply no_later_refl
      | now apply no_later_strict].
Qed.

Lemma rank_counts_NoDup asc (L l : list Q) :
  incl l L ->
  ForallOrdPairs (fun a b => ~ (a == b)%Q) l ->
  NoDup (map (fun v => List.length (filter (no_later asc v) L)) l).
Proof.
  intros Hincl Hd. induction Hd as [|a l Ha Hd IH]; simpl; constructor.
  - intros Hin. apply in_map_iff in Hin. destruct Hin as (b & Hb & Hbl).
    rewrite Forall_forall in Ha.
    apply (@rank_count_inj asc L a b); auto using in_eq, in_cons.
  - apply IH. intros x Hx. apply Hincl. now right.
Qed.


(* ================================================================== *)
(** * The summary columns *)
(* ================================================================== *)

Lemma Qmin_spec a b :
  (Py.Qmin a b = a \/ Py.Qmin a b = b) /\ (Py.Qmin a b <= a)%Q /\ (Py.Qmin a b <= b)%Q.
Proof.
  unfold Py.Qmin. destruct (Qle_bool a b) eqn:E.
  - apply Qle_bool_iff in E. repeat split; auto using Qle_refl.
  - apply Insertion.Qle_bool_false in E. repeat split; auto using Qle_refl.
Qed.

Lemma Qmax_spec a b :
  (Py.Qmax a b = a \/ Py.Qmax a b = b) /\ (a <= Py.Qmax a b)%Q /\ (b <= Py.Qmax a b)%Q.
Proof.
  unfold Py.Qmax. destruct (Qle_bool a b) eqn:E.
  - apply Qle_bool_iff in E. repeat split; auto using Qle_refl.
  - apply Insertion.Qle_bool_false in E. repeat split; auto using Qle_refl.
Qed.

Lemma fold_min_spec (l : list Q) : forall x,
  (fold_left Py.Qmin l x = x \/ In (fold_left Py.Qmin l x) l) /\
  (fold_left Py.Qmin l x <= x)%Q /\
  (forall y, In y l -> (fold_left Py.Qmin l x <= y)%Q).
Proof.
  induction l as [|y l IH]; intros x; simpl.
  - repeat split; auto using Qle_refl. intros y [].
  - destruct (IH (Py.Qmin x y)) as (Hin & Hle & Hall).
    destruct (Qmin_spec x y) as (Hm & Hx & Hy).
    split; [|split].
    + destruct Hin as [->|Hin]; [|now right; right].
      destruct Hm as [->| ->]; [now left | right; now left].
    + eapply Qle_trans; eassumption.
    + intros z [<-|Hz]; [eapply Qle_trans; eassumption | now apply Hall].
Qed.

Lemma fold_max_spec (l : list Q) : forall x,
  (fold_left Py.Qmax l x = x \/ In (fold_left Py.Qmax l x) l) /\
  (x <= fold_left Py.Qmax l x)%Q /\
  (forall y, In y l -> (y <= fold_left Py.Qmax l x)%Q).
Proof.
  induction l as [|y l IH]; intros x; simpl.
  - repeat split; auto using Qle_refl. intros y [].
  - destruct (IH (Py.Qmax x y)) as (Hin & Hle & Hall).
    destruct (Qmax_spec x y) as (Hm & Hx & Hy).
    split; [|split].
    + destruct Hin as [->|Hin]; [|now right; right].
      destruct Hm as [->| ->]; [now left | right; now left].
    + eapply Qle_trans; eassumption.
    + intros z [<-|Hz]; [eapply Qle_trans; eassumption | now apply Hall].
Qed.

Lemma minimum_spec (l : list Q) :
  l <> [] -> In (Py.minimum l) l /\ forall y, In y l -> (Py.minimum l <= y)%Q.
Proof.
  destruct l as [|x l]; [congruence|]. intros _. unfold Py.minimum.
  destruct (fold_min_spec l x) as (Hin & Hle & Hall). split.
  - destruct Hin as [->|Hin]; [now left | now right].
  - intros y [<-|Hy]; auto.
Qed.

Lemma maximum_spec (l : list Q) :
  l <> [] -> In (Py.maximum l) l /\ forall y, In y l -> (y <= Py.maximum l)%Q.
Proof.
  destruct l as [|x l]; [congruence|]. intros _. unfold Py.maximum.
  destruct (fold_max_spec l x) as (Hin & Hle & Hall). split.
  - destruct Hin as [->|Hin]; [now left | now right].
  - intros y [<-|Hy]; auto.
Qed.

Lemma inject_Z_succ (n : nat) :
  (inject_Z (Z.of_nat (Datatypes.S n)) == inject_Z (Z.of_nat n) + 1)%Q.
Proof. rewrite Nat2Z.inj_succ. unfold Z.succ. now rewrite inject_Z_plus. Qed.

Lemma Qsum_lower (a : Q) (l : list Q) :
  (forall x, In x l -> (a <= x)%Q) ->
  (a * inject_Z (Z.of_nat (List.length l)) <= Py.Qsum l)%Q.
Proof.
  induction l as [|x l IH]; intros H.
  - simpl. rewrite Qmult_0_r. apply Qle_refl.
  - cbn [List.length Py.Qsum fold_right]. rewrite inject_Z_succ.
    rewrite Qmult_plus_distr_r, Qmult_1_r, Qplus_comm.
    apply Qplus_le_compat; [apply H; now left|].
    apply IH. intros y Hy. apply H. now right.
Qed.

Lemma Qsum_upper (b : Q) (l : list Q) :
  (forall x, In x l -> (x <= b)%Q) ->
  (Py.Qsum l <= b * inject_Z (Z.of_nat (List.length l)))%Q.
Proof.
  induction l as [|x l IH]; intros H.
  - simpl. rewrite Qmult_0_r. apply Qle_refl.
  - cbn [List.length Py.Qsum fold_right]. rewrite inject_Z_succ.
    rewrite Qmult_plus_distr_r, Qmult_1_r, (Qplus_comm (b * _)).
    apply Qplus_le_compat; [apply H; now left|].
    apply IH. intros y Hy. apply H. now right.
Qed.

Lemma mean_bounds (a b : Q) (l : list Q) :
  l <> [] ->
  (forall x, In x l -> (a <= x)%Q /\ (x <= b)%Q) ->
  (a <= Py.mean l)%Q /\ (Py.mean l <= b)%Q.
Proof.
  intros Hne H. unfold Py.mean.
  assert (Hpos : (0 < inject_Z (Z.of_nat (List.length l)))%Q).
  { change 0%Q with (inject_Z 0). rewrite <- Zlt_Qlt.
    destruct l; [congruence | simpl; lia]. }
  split.
  - apply Qle_shift_div_l; [exact Hpos|]. apply Qsum_lower. intros x Hx. now apply H.
  - apply Qle_shift_div_r; [exact Hpos|]. apply Qsum_upper. intros x Hx. now apply H.
Qed.

Section SummaryStats.
Context {S : Sorter}.
Variable std : list Q -> Q.

Lemma add_stats_bounds (r : string * list Q) :
  snd r <> [] ->
  In (low (add_stats std r)) (snd r) /\
  In (high (add_stats std r)) (snd r) /\
  (forall x, In x (snd r) ->
     (low (add_stats std r) <= x)%Q /\ (x <= high (add_stats std r))%Q) /\
  (low (add_stats std r) <= average (add_stats std r))%Q /\
  (average (add_stats std r) <= high (add_stats std r))%Q.
Proof.
  intros Hne. cbn [add_stats low high average].
  destruct (minimum_spec Hne) as [Hmin Hmin'].
  destruct (maximum_spec Hne) as [Hmax Hmax'].
  split; [exact Hmin|]. split; [exact Hmax|]. split; [intros x Hx; auto|].
  apply mean_bounds; [exact Hne|]. intros x Hx. auto.
Qed.


End SummaryStats.

(* ================================================================== *)
(** * The frames of the ranking methods *)
(* ================================================================== *)

Lemma Permutation_filter {A} (p : A -> bool) (l l' : list A) :
  Permutation l l' -> Permutation (filter p l) (filter p l').
Proof.
  induction 1 as [|x l l' _ IH|x y l|l1 l2 l3 _ IH1 _ IH2]; simpl.
  - constructor.
  - destruct (p x); [now constructor | exact IH].
  - destruct (p x), (p y); try apply Permutation_refl. apply perm_swap.
  - eapply perm_trans; eassumption.
Qed.

Lemma frame_rows_index (df : col_frame) : frame_index (frame_rows df) = cf_index df.
Proof.
  unfold frame_index, frame_rows. rewrite map_map. cbn [fst].
  rewrite (map_nth_seq (fun x => x) (cf_index df) ""%string). apply map_id.
Qed.

Definition fits (idx : list string) (c : string * list Q) : Prop :=
  List.length (snd c) = List.length idx.

Lemma DataFrame_cases (data : dict) (idx : list string) :
  (Forall (fits idx) data /\
   DataFrame data idx = Ok {| cf_index := idx; cf_columns := data |}) \/
  (~ Forall (fits idx) data /\ DataFrame data idx = Raise (Raised "ValueError")).
Proof.
  unfold DataFrame.
  destruct (forallb (fun c => Nat.eqb (List.length (snd c)) (List.length idx)) data) eqn:E.
  - left. split; [|reflexivity]. apply Forall_forall. intros c Hc.
    rewrite forallb_forall in E. apply Nat.eqb_eq. now apply E.
  - right. split; [|reflexivity]. intros H.
    assert (E' : forallb (fun c => Nat.eqb (List.length (snd c)) (List.length idx)) data
                 = true).
    { apply forallb_forall. intros c Hc. apply Nat.eqb_eq.
      rewrite Forall_forall in H. now apply H. }
    congruence.
Qed.

Lemma dict_set_Forall (P : string * list Q -> Prop) (d : dict) key value :
  Forall P d -> (forall k, P (k, value)) -> Forall P (dict_set d key value).
Proof.
  intros Hd Hv. induction Hd as [|[k v] d Hk Hd IH]; simpl.
  - now repeat constructor.
  - destruct (String.eqb k key); constructor; auto.
Qed.

(** The columns of a ranked frame are ranks of arrays as long as the index. *)
Definition is_ranked (n : nat) (c : string * list Q) : Prop :=
  exists asc orig, snd c = rank_max asc orig /\ List.length orig = n.

Lemma ranked_row_in_range (df : col_frame) :
  Forall (is_ranked (List.length (cf_index df))) (cf_columns df) ->
  Forall (fun r => Forall (in_range (shape0 (cf_index df))) (snd r)) (frame_rows df).
Proof.
  intros Hcols. apply Forall_forall. intros r Hr.
  unfold frame_rows in Hr. apply in_map_iff in Hr. destruct Hr as (k & <- & Hk).
  apply in_seq in Hk. cbn [snd]. apply Forall_forall. intros x Hx.
  apply in_map_iff in Hx. destruct Hx as (c & <- & Hc).
  rewrite Forall_forall in Hcols. destruct (Hcols c Hc) as (asc & orig & -> & Hlen).
  unfold rank_max. rewrite (nth_map_in _ _ 0%Q) by lia.
  unfold shape0. rewrite <- Hlen. apply rank_of_bounds. apply nth_In. lia.
Qed.

Section FrameFacts.
Context {S : Sorter}.
Variable estimator : Type.
Variable estimator_name : estimator -> string.
Variable f_classif : list Q * list Q.
Variable f_regression : list Q * list Q.
Variable variances_ : list Q.
Variable feature_importances : estimator -> list Q.
Variable ranking_ : estimator -> list Q.
Variable self : selector estimator.

(** What a method built on [pd.DataFrame] gives: on return, a frame with
    the columns of the data as its index and, under [rank], ranks between
    1 and the number of features as values; no failure but ValueError. *)
Definition well_built (m : result rank_frame) : Prop :=
  (forall fr, m = Ok fr ->
     frame_index fr = columns self /\
     (rank self = true ->
      Forall (fun r => Forall (in_range (shape0 (columns self))) (snd r)) fr)) /\
  (forall e, m = Raise e -> e = Raised "ValueError").

(** The shape the four methods built on [pd.DataFrame] share. *)
Lemma built_frame (data : dict) (ranked : col_frame -> col_frame) :
  let df := {| cf_index := columns self; cf_columns := data |} in
  cf_index (ranked df) = columns self ->
  (Forall (fits (columns self)) data ->
   Forall (is_ranked (List.length (columns self))) (cf_columns (ranked df))) ->
  let m := match DataFrame data (columns self) with
           | Raise e => Raise e
           | Ok featureDf =>
               Ok (frame_rows (if rank self then ranked featureDf else featureDf))
           end in
  ((exists fr, m = Ok fr) <-> Forall (fits (columns self)) data) /\ well_built m.
Proof.
  intros df Hidx Hranked m. subst m. unfold well_built.
  destruct (DataFrame_cases data (columns self)) as [[Hfit ->]|[Hfit ->]].
  - split; [split; [auto | intros _; eexists; reflexivity]|].
    split; [|discriminate]. intros fr E. inversion E; subst fr. clear E. fold df. split.
    + rewrite frame_rows_index. destruct (rank self); [apply Hidx | reflexivity].
    + intros ->. pose proof (ranked_row_in_range (ranked df)) as H.
      rewrite Hidx in H. apply H. now apply Hranked.
  - split; [split; [intros [fr E]; discriminate | contradiction]|].
    split; [discriminate|]. intros e E. now inversion E.
Qed.

Lemma rank_frame_columns_ranked asc (data : dict) (idx : list string) :
  Forall (fits idx) data ->
  Forall (is_ranked (List.length idx))
         (cf_columns (rank_frame_columns asc {| cf_index := idx; cf_columns := data |})).
Proof.
  intros H. cbn [rank_frame_columns cf_columns]. apply Forall_map.
  eapply Forall_impl; [|exact H]. intros c Hc. now exists asc, (snd c).
Qed.

Lemma FScore_frame (univariate : list Q * list Q) :
  ((exists fr, featureSelectorFScore self univariate = Ok fr) <->
   List.length (fst univariate) = List.length (columns self) /\
   List.length (snd univariate) = List.length (columns self)) /\
  well_built (featureSelectorFScore self univariate).
Proof.
  destruct (built_frame
              (data := [("F-value"%string, fst univariate);
                        ("p-value"%string, snd univariate)])
              (fun df => rank_column true "p-value" (rank_column false "F-value" df)))
    as [Hiff Hbuilt].
  - reflexivity.
  - intros H. inversion H as [|? ? H1 H']; subst. inversion H' as [|? ? H2 _]; subst.
    cbn. repeat constructor.
    + now exists false, (fst univariate).
    + now exists true, (snd univariate).
  - split; [|exact Hbuilt]. etransitivity; [exact Hiff|]. split.
    + intros H. inversion H as [|? ? H1 H']; subst. inversion H' as [|? ? H2 _]; subst.
      now split.
    + intros [H1 H2]. now repeat constructor.
Qed.

Lemma Variance_frame :
  ((exists fr, featureSelectorVariance variances_ self = Ok fr) <->
   List.length variances_ = List.length (columns self)) /\
  well_built (featureSelectorVariance variances_ self).
Proof.
  destruct (built_frame (data := [("Variance"%string, variances_)])
              (rank_column false "Variance"))
    as [Hiff Hbuilt].
  - reflexivity.
  - intros H. inversion H as [|? ? H1 _]; subst. cbn. repeat constructor.
    now exists false, variances_.
  - split; [|exact Hbuilt]. etransitivity; [exact Hiff|]. split.
    + intros H. now inversion H.
    + intros H. now repeat constructor.
Qed.

Lemma per_estimator_frame (prefix : string) (array : estimator -> list Q) asc :
  let m := match DataFrame (per_estimator estimator_name self prefix array)
                           (columns self) with
           | Raise e => Raise e
           | Ok featureDf =>
               Ok (frame_rows (if rank self then rank_frame_columns asc featureDf
                               else featureDf))
           end in
  ((exists fr, m = Ok fr) <->
   Forall (fits (columns self)) (per_estimator estimator_name self prefix array)) /\
  well_built m.
Proof.
  apply (built_frame (data := per_estimator estimator_name self prefix array)
           (rank_frame_columns asc)).
  - reflexivity.
  - apply rank_frame_columns_ranked.
Qed.

Lemma per_estimator_fits (prefix : string) (array : estimator -> list Q) :
  (forall e, In e (estimators self) ->
             List.length (array e) = List.length (columns self)) ->
  Forall (fits (columns self)) (per_estimator estimator_name self prefix array).
Proof.
  intros H. unfold per_estimator.
  assert (G : forall (l : list estimator) (d : dict),
            (forall e, In e l -> List.length (array e) = List.length (columns self)) ->
            Forall (fits (columns self)) d ->
            Forall (fits (columns self))
                   (fold_left (fun featureDict e =>
                                 dict_set featureDict (prefix ++ estimator_name e)
                                          (array e)) l d)).
  { induction l as [|e l IH]; intros d Hl Hd; [exact Hd|].
    cbn [fold_left]. apply IH; [intros e' He'; apply Hl; now right|].
    apply dict_set_Forall; [exact Hd|]. intros k. apply Hl. now left. }
  apply G; [exact H | constructor].
Qed.


End FrameFacts.

(* ================================================================== *)
(** * featureSelectorCorr, and the five methods together *)
(* ================================================================== *)

Lemma strongly_sorted_map {A B} (R : A -> A -> Prop) (R' : B -> B -> Prop)
    (f : A -> B) (l : list A) :
  (forall a b, R a b -> R' (f a) (f b)) ->
  StronglySorted R l -> StronglySorted R' (map f l).
Proof.
  intros Hf. induction 1 as [|x l Hs IH Hall]; simpl; constructor; [exact IH|].
  apply Forall_map. eapply Forall_impl; [|exact Hall]. intros; now apply Hf.
Qed.

Lemma rank_of_mono (l : list Q) (v w : Q) :
  (w <= v)%Q -> (rank_of false l v <= rank_of false l w)%Q.
Proof.
  intros H. unfold rank_of, shape0. apply inject_Z_nat_le.
  apply filter_length_mono. intros x Hx. unfold no_later in *.
  apply Qle_bool_iff in Hx. apply Qle_bool_iff. eapply Qle_trans; eassumption.
Qed.

Section CorrFacts.
Context {S : Sorter}.
Variable estimator : Type.
Variable abs_corr : string -> Q.
Variable self : selector estimator.

Hypothesis target_is_no_column : ~ In (target_name self) (columns self).

(** Lines 239-251: the sorted correlations without the target's row. *)
Definition corr_rows : rank_frame :=
  filter (fun r => negb (String.eqb (fst r) (target_name self)))
         (sort_values value false
            (map (fun c => (c, [abs_corr c])) (columns self ++ [target_name self]))).

Lemma featureSelectorCorr_rows :
  featureSelectorCorr abs_corr self
  = if rank self
    then map (fun r => (fst r, [rank_of false (map value corr_rows) (value r)])) corr_rows
    else corr_rows.
Proof. reflexivity. Qed.

Lemma corr_rows_values : Forall (fun r => snd r = [abs_corr (fst r)]) corr_rows.
Proof.
  apply Forall_forall. intros r Hr. unfold corr_rows in Hr.
  apply filter_In in Hr. destruct Hr as [Hr _].
  apply (Permutation_in _ (Permutation_sym (sort_values_perm value false _))) in Hr.
  apply in_map_iff in Hr. destruct Hr as (c & <- & _). reflexivity.
Qed.

Lemma corr_rows_index : Permutation (frame_index corr_rows) (columns self).
Proof.
  unfold frame_index, corr_rows.
  set (keep := fun n : string => negb (String.eqb n (target_name self))).
  change (fun r : string * list Q => negb (String.eqb (fst r) (target_name self)))
    with (fun r : string * list Q => keep (fst r)).
  rewrite <- filter_map_swap.
  eapply perm_trans.
  - apply Permutation_filter. apply Permutation_map. apply Permutation_sym.
    apply sort_values_perm.
  - rewrite map_map. cbn [fst]. rewrite map_id, filter_app.
    rewrite filter_all.
    + cbn [filter]. unfold keep. rewrite String.eqb_refl. cbn. now rewrite app_nil_r.
    + intros c Hc. unfold keep. apply negb_true_iff, String.eqb_neq.
      intros ->. contradiction.
Qed.

Lemma corr_rows_sorted : StronglySorted (fun a b => (value b <= value a)%Q) corr_rows.
Proof.
  unfold corr_rows. apply filter_strongly_sorted.
  apply (sorted_strongly (key := value) (asc := false)). apply sort_values_sorted.
Qed.

Lemma corr_rank_in_range (r : string * list Q) :
  In r corr_rows ->
  in_range (shape0 (columns self)) (rank_of false (map value corr_rows) (value r)).
Proof.
  intros Hr.
  replace (shape0 (columns self)) with (shape0 (map value corr_rows)).
  - apply rank_of_bounds. now apply in_map.
  - unfold shape0. rewrite length_map.
    rewrite <- (Permutation_length corr_rows_index). unfold frame_index.
    now rewrite length_map.
Qed.

Lemma corr_in_range :
  rank self = true ->
  Forall (fun r => Forall (in_range (shape0 (columns self))) (snd r))
         (featureSelectorCorr abs_corr self).
Proof.
  intros Hrank. rewrite featureSelectorCorr_rows, Hrank.
  apply Forall_map. apply Forall_forall. intros r Hr. cbn [snd].
  repeat constructor; now apply corr_rank_in_range.
Qed.

Lemma corr_index : Permutation (frame_index (featureSelectorCorr abs_corr self))
                               (columns self).
Proof.
  rewrite featureSelectorCorr_rows. destruct (rank self); [|apply corr_rows_index].
  unfold frame_index. rewrite map_map. cbn [fst]. apply corr_rows_index.
Qed.


End CorrFacts.

Lemma frame_row_some (n : string) (fr : rank_frame) (x : Q) :
  In x (frame_row n fr) -> exists r, In r fr /\ In x (snd r).
Proof.
  unfold frame_row. destruct (find _ fr) as [r|] eqn:E; [|contradiction].
  intros Hx. apply find_some in E. exists r. tauto.
Qed.

Lemma frame_row_found (n : string) (fr : rank_frame) :
  In n (frame_index fr) -> exists r, In r fr /\ frame_row n fr = snd r.
Proof.
  unfold frame_row, frame_index. intros Hn.
  destruct (find (fun r => String.eqb n (fst r)) fr) as [r|] eqn:E.
  - apply find_some in E. exists r. tauto.
  - exfalso. apply in_map_iff in Hn. destruct Hn as (r & <- & Hr).
    pose proof (find_none _ _ E r Hr) as H. cbn beta in H.
    now rewrite String.eqb_refl in H.
Qed.

Section Pipeline.
Context {S : Sorter}.
Variable estimator : Type.
Variable estimator_name : estimator -> string.
Variable f_classif : list Q * list Q.
Variable f_regression : list Q * list Q.
Variable variances_ : list Q.
Variable feature_importances : estimator -> list Q.
Variable ranking_ : estimator -> list Q.
Variable abs_corr : string -> Q.
Variable self : selector estimator.
Variable std : list Q -> Q.

Lemma FScore_rows_nonempty (univariate : list Q * list Q) (fr : rank_frame) :
  featureSelectorFScore self univariate = Ok fr ->
  Forall (fun r => snd r <> []) fr.
Proof.
  unfold featureSelectorFScore. cbn [dict_set String.eqb Ascii.eqb Bool.eqb].
  destruct (DataFrame_cases
              [("F-value"%string, fst univariate); ("p-value"%string, snd univariate)]
              (columns self)) as [[_ E]|[_ E]]; cbn in E |- *; rewrite E;
    [|discriminate].
  intros H. inversion H; subst fr. clear H.
  apply Forall_forall. intros r Hr. unfold frame_rows in Hr.
  apply in_map_iff in Hr. destruct Hr as (k & <- & _).
  destruct (rank self); discriminate.
Qed.


End Pipeline.

(* ================================================================== *)
(** * Worked scenarios *)
(* ================================================================== *)

Module Scenario.

Local Open Scope string_scope.

(** A consensus row with one ranking method. *)
Definition row (name : string) (rank : Q) : summary_row :=
  {| feature := name; average := rank; stdev := 0; low := rank; high := rank;
     methods := [rank] |}.

Definition table2 : summary_frame := [row "A" 1; row "B" 2].

Definition table4 : summary_frame := [row "A" 1; row "B" 2; row "C" 3; row "D" 4].

Definition table4_shuffled : summary_frame :=
  [row "B" 2; row "A" 1; row "D" 4; row "C" 3].

Definition table7 : summary_frame :=
  [row "A" 1; row "B" 2; row "C" 3; row "D" 4; row "E" 5; row "F" 6; row "G" 7].

Definition table10 : summary_frame :=
  [row "A" 1; row "B" 2; row "C" 3; row "D" 4; row "E" 5;
   row "F" 6; row "G" 7; row "H" 8; row "I" 9; row "J" 10].

(** Estimators are given by class name. *)
Definition name_of (e : string) : string := e.

(** Three folds; the validation score peaks on two columns. *)
Definition scores_by_size (n : nat) : cv_scores :=
  {| train_score := [1; 1; 1]%Q;
     test_score := if Nat.eqb n 2 then [9 # 10; 9 # 10; 9 # 10]%Q
                   else [1 # 2; 1 # 2; 1 # 2]%Q |}.

Definition cv_by_size (e : string) (top : list string) (nFolds : Z) (metric : string)
    : result cv_scores :=
  Ok (scores_by_size (List.length top)).

(** The same, but "SVC" cannot be fitted on a single column. *)
Definition cv_svc_fails (e : string) (top : list string) (nFolds : Z) (metric : string)
    : result cv_scores :=
  if String.eqb e "SVC" && Nat.eqb (List.length top) 1
  then Raise (Raised "ValueError")
  else Ok (scores_by_size (List.length top)).

Definition fresh (t : summary_frame) : state string :=
  {| self_estimators := []; self_resultsSummary := t; self_cvSummary := [];
     cv_calls := [] |}.

(** A log of one estimator and one metric whose largest validation score
    is shared by the rows at positions 2 and 5. *)
Definition scored (v : Q) : cv_row :=
  {| Estimator := "SVC"; Training_score := 1; Validation_score := v;
     Scoring := "accuracy" |}.

Definition tied_log : cv_frame :=
  [(0, scored (5 # 10)); (1, scored (6 # 10)); (2, scored (9 # 10));
   (3, scored (7 # 10)); (4, scored (8 # 10)); (5, scored (9 # 10))].

(** Five ranking results over the features A and B whose averages tie. *)
Definition tied_ranks : RankResults :=
  {| resultsFScore := [("A", [1; 1]%Q); ("B", [2; 2]%Q)];
     resultsVariance := [("A", [2]%Q); ("B", [1]%Q)];
     resultsCorr := [("B", [1]%Q); ("A", [2]%Q)];
     resultsRFE := [("A", [1]%Q); ("B", [2]%Q)];
     resultsImportance := [("A", [2]%Q); ("B", [1]%Q)] |}.

(** A stand-in for the sample standard deviation. *)
Definition no_std (l : list Q) : Q := 0.

(** ** C1: a sweep of two estimators, two metrics and two subsets *)

Definition scores4 (e : string) (metric : string) (i : Z) : cv_scores :=
  scores_by_size (List.length (top_features (S := Insertion.stable) table4 i)).


(** ** C2: ten features, step 3 *)

Lemma subset_sequence_witness :
  exists indices,
    Py.arange 0 10 3 = Some indices /\
    indices = [0; 3; 6; 9] /\
    subset_sizes (S := Insertion.stable) table10 indices = [10; 7; 4; 1] /\
    map (top_features (S := Insertion.stable) table10) indices
    = [["A"; "B"; "C"; "D"; "E"; "F"; "G"; "H"; "I"; "J"];
       ["A"; "B"; "C"; "D"; "E"; "F"; "G"];
       ["A"; "B"; "C"; "D"];
       ["A"]].
Proof.
  destruct (@subset_sequence Insertion.stable table10 3 ltac:(vm_compute; discriminate)
              ltac:(lia))
    as (indices & Har & Hidx & _ & _ & _ & _ & _ & _ & _ & _ & H10).
  exists indices. split; [exact Har|]. split; [exact Hidx|].
  split; [apply H10; reflexivity|]. rewrite Hidx. reflexivity.
Defined.

(** ** C3: a tie for the largest validation score *)



(** ** C5: two features whose averages tie *)


(** ** C6: a ranking result that misses a feature *)

(** The variance ranking has no row for B: the consensus table has A only. *)
Definition ranks_without_B : RankResults :=
  {| resultsFScore := [("A", [1; 1]%Q); ("B", [2; 2]%Q)];
     resultsVariance := [("A", [1]%Q)];
     resultsCorr := [("B", [1]%Q); ("A", [2]%Q)];
     resultsRFE := [("A", [1]%Q); ("B", [2]%Q)];
     resultsImportance := [("A", [2]%Q); ("B", [1]%Q)] |}.

Lemma missing_feature_is_dropped :
  index (featureSelectorSummary (S := Insertion.stable) no_std ranks_without_B) = ["A"].
Proof. reflexivity. Qed.

(** ** C7: an estimator that cannot be fitted on one column *)

Definition scores2 (e : string) (metric : string) (i : Z) : cv_scores :=
  scores_by_size (List.length (top_features (S := Insertion.stable) table2 i)).



(** ** C8: empty argument lists *)

(** C8, counterexample.  With no estimator, and with no metric, the
    function returns an empty log and raises nothing; [cross_validate] is
    not called. *)
Lemma empty_lists_return_normally :
  featureSelectorCrossVal (S := Insertion.stable) name_of cv_by_size
    ["accuracy"] (Some table4) (Some []) 3 1 (fresh table4)
  = (fresh table4, Ok []) /\
  featureSelectorCrossVal (S := Insertion.stable) name_of cv_by_size
    [] (Some table4) (Some ["LogisticRegression"; "SVC"]) 3 1 (fresh table4)
  = (fresh table4, Ok []).
Proof. split; reflexivity. Qed.

(** ** C9: two estimators over the features A and B *)

Definition entry (estimator metric : string) (v : Q) : cv_row :=
  {| Estimator := estimator; Training_score := 1; Validation_score := v;
     Scoring := metric |}.

(** "LogisticRegression" does best without B, "SVC" with both features. *)
Definition usage_log : cv_frame :=
  [(0, entry "LogisticRegression" "accuracy" (7 # 10));
   (1, entry "LogisticRegression" "accuracy" (8 # 10));
   (2, entry "LogisticRegression" "f1" (6 # 10));
   (3, entry "LogisticRegression" "f1" (5 # 10));
   (0, entry "SVC" "accuracy" (9 # 10));
   (1, entry "SVC" "accuracy" (6 # 10));
   (2, entry "SVC" "f1" (4 # 10));
   (3, entry "SVC" "f1" (5 # 10))].


(** ** C10: the same four rows in another order *)

Lemma crossval_row_order_irrelevant_witness :
  top_features (S := Insertion.stable) table4 2
  = top_features (S := Insertion.stable) table4_shuffled 2 /\
  featureSelectorCrossVal (S := Insertion.stable) name_of cv_by_size
    ["accuracy"] (Some table4) (Some ["SVC"]) 3 2 (fresh table4)
  = featureSelectorCrossVal (S := Insertion.stable) name_of cv_by_size
    ["accuracy"] (Some table4_shuffled) (Some ["SVC"]) 3 2 (fresh table4).
Proof.
  destruct (@crossval_row_order_irrelevant Insertion.stable string name_of cv_by_size
              table4 table4_shuffled) as (_ & Htop & _ & Hrun).
  - eapply perm_trans; [apply perm_swap|]. do 2 apply perm_skip. apply perm_swap.
  - unfold distinct_keys, table4.
    repeat (constructor; try (unfold Qeq; simpl; lia)).
  - split; [apply Htop | apply Hrun].
Defined.

(** ** C4: a sweep with step 2, and one with step 5 *)

(** C4, the code at a failing input.  Four features, step 2: the subsets
    are all four features (index 0) and the top two (index 2), and the top
    two score best.  featuresUsedSummary reads the winning row's position,
    1, as the number of dropped features and reports the top three
    features; the winning subset was ["A"; "B"]. *)
Lemma featuresUsedSummary_misreads_step :
  exists log,
    snd (featureSelectorCrossVal (S := Insertion.stable) name_of cv_by_size
           ["accuracy"] (Some table4) (Some ["SVC"]) 3 2 (fresh table4))
    = Ok log /\
    cv_calls
      (fst (featureSelectorCrossVal (S := Insertion.stable) name_of cv_by_size
              ["accuracy"] (Some table4) (Some ["SVC"]) 3 2 (fresh table4)))
    = [("SVC", ["A"; "B"; "C"; "D"], "accuracy"); ("SVC", ["A"; "B"], "accuracy")] /\
    Forall2 Qeq (map validation log) [1 # 2; 9 # 10]%Q /\
    top_features (S := Insertion.stable) table4 2 = ["A"; "B"] /\
    numDropped_of (S := Insertion.stable) log "accuracy" "SVC" = Ok 1 /\
    featuresUsed (S := Insertion.stable) table4 1 = ["A"; "B"; "C"] /\
    featuresUsedSummary (S := Insertion.stable) table4 log "accuracy"
    = Ok {| u_index := ["A"; "B"; "C"; "D"];
            u_columns := [("SVC", [Str "X"; Str "X"; Str "X"; Str ""]);
                          ("count", [Int 1; Int 1; Int 1; Int 0])] |}.
Proof.
  eexists. split; [reflexivity|]. split; [reflexivity|].
  split; [repeat constructor|]. repeat split; reflexivity.
Qed.

(** Seven features, step 5: the subsets are all seven features (index 0)
    and the top two (index 5), and the top two score best.
    featureSelectorResultsPlot recovers the step as ceil(7 / 2) = 4 and
    reports 4 dropped features and the top three; the winning subset was
    ["A"; "B"]. *)
Lemma featureSelectorResultsPlot_misreads_step :
  exists log,
    snd (featureSelectorCrossVal (S := Insertion.stable) name_of cv_by_size
           ["accuracy"] (Some table7) (Some ["SVC"]) 3 5 (fresh table7))
    = Ok log /\
    cv_calls
      (fst (featureSelectorCrossVal (S := Insertion.stable) name_of cv_by_size
              ["accuracy"] (Some table7) (Some ["SVC"]) 3 5 (fresh table7)))
    = [("SVC", ["A"; "B"; "C"; "D"; "E"; "F"; "G"], "accuracy");
       ("SVC", ["A"; "B"], "accuracy")] /\
    Forall2 Qeq (map validation log) [1 # 2; 9 # 10]%Q /\
    top_features (S := Insertion.stable) table7 5 = ["A"; "B"] /\
    option_map (fun c => (chart_numDropped c, chart_featuresUsed c))
      (match plot_one (S := Insertion.stable) table7 log "accuracy" "SVC" with
       | Ok c => Some c
       | Raise _ => None
       end)
    = Some (4, ["A"; "B"; "C"]).
Proof.
  eexists. split; [reflexivity|]. split; [reflexivity|].
  split; [repeat constructor|]. repeat split; reflexivity.
Qed.

End Scenario.

(* ================================================================== *)
(** * Further worked cases *)
(* ================================================================== *)

Module Cases.

Import Scenario.
Local Open Scope string_scope.

(** ** The sweep's outcomes *)

Lemma crossval_returns_iff_witness :
  exists e p,
    In e ["LogisticRegression"; "SVC"; "GaussianNB"] /\
    In p (sweep table2 ["accuracy"] 1) /\
    cv_svc_fails e (top_features (S := Insertion.stable) table2 (snd p)) 3 (fst p)
    = Raise (Raised "ValueError").
Proof.
  destruct (@crossval_returns_iff Insertion.stable string name_of cv_svc_fails 3
              table2 ["accuracy"] 1 ltac:(lia)
              ["LogisticRegression"; "SVC"; "GaussianNB"] (fresh table2))
    as (_ & _ & H).
  apply H. reflexivity.
Defined.

Lemma crossval_zero_step_witness :
  featureSelectorCrossVal (S := Insertion.stable) name_of cv_by_size ["accuracy"]
    (Some table4) (Some ["SVC"]) 3 0 (fresh table4)
  = (update (fresh table4) [] [], Raise ArangeError).
Proof.
  apply (@crossval_zero_step Insertion.stable string name_of cv_by_size
           "SVC" [] "accuracy" [] table4 3 (fresh table4)).
  vm_compute. discriminate.
Defined.

Lemma crossval_negative_step_witness :
  featureSelectorCrossVal (S := Insertion.stable) name_of cv_by_size ["accuracy"]
    (Some table4) (Some ["SVC"]) 3 (-2) (fresh table4)
  = (update (fresh table4) [] [], Ok []).
Proof.
  apply (@crossval_negative_step Insertion.stable string name_of cv_by_size
           ["accuracy"] table4 ["SVC"] 3 (-2) (fresh table4)).
  lia.
Defined.

(** ** What a step drops *)

Lemma dropped_are_least_important_witness :
  top_features (S := Insertion.stable) table4_shuffled 1 = ["A"; "B"; "C"] /\
  Permutation table4_shuffled
    (firstn 3 (sort_values (Sorter := Insertion.stable) average true table4_shuffled)
     ++ skipn 3 (sort_values (Sorter := Insertion.stable) average true table4_shuffled)).
Proof.
  destruct (@dropped_are_least_important Insertion.stable table4_shuffled 1
              ltac:(lia) ltac:(reflexivity)) as (Htop & _ & Hperm & _).
  split; [rewrite Htop; reflexivity | exact Hperm].
Defined.

Lemma subsets_are_nested_witness :
  top_features (S := Insertion.stable) table10 6
  = firstn 4 (top_features (S := Insertion.stable) table10 3).
Proof.
  apply (@subsets_are_nested Insertion.stable table10 3 6);
    [lia | lia | reflexivity].
Defined.

(** ** Reading a sweep's log *)

Lemma featuresUsedSummary_reads_position_witness :
  exists p : nat,
    numDropped_of (S := Insertion.stable)
      (sweep_log name_of scores4 table4 ["accuracy"] 2 ["SVC"]) "accuracy" "SVC"
    = Ok (Z.of_nat p) /\
    In (Z.of_nat p * 2) (PyFacts.sweep_indices 4 2).
Proof.
  destruct (@featuresUsedSummary_reads_position Insertion.stable string name_of scores4
              table4 ["accuracy"] 2 ["SVC"]
              ltac:(lia) ltac:(vm_compute; discriminate)
              ltac:(repeat constructor; intros [])
              ltac:(intros e e' _ _ H; exact H)
              ltac:(repeat constructor; intros [])
              "SVC" "accuracy" ltac:(now left) ltac:(now left))
    as (p & Hnum & Hidx & _).
  exists p. split; [exact Hnum | exact Hidx].
Defined.

Lemma plot_reads_position_witness :
  exists (p : nat) (step' : Z),
    1 <= step' <= 5 /\
    option_map chart_numDropped
      (match plot_one (S := Insertion.stable) table7
               (sweep_log name_of scores4 table7 ["accuracy"] 5 ["SVC"])
               "accuracy" "SVC" with
       | Ok c => Some c
       | Raise _ => None
       end) = Some (Z.of_nat p * step').
Proof.
  destruct (@plot_reads_position Insertion.stable string name_of scores4
              table7 ["accuracy"] 5 ["SVC"]
              ltac:(lia) ltac:(vm_compute; discriminate)
              ltac:(repeat constructor; intros [])
              ltac:(intros e e' _ _ H; exact H)
              ltac:(repeat constructor; intros [])
              "SVC" "accuracy" ltac:(now left) ltac:(now left))
    as (p & step' & _ & Hstep & _ & _ & Hplot & _).
  exists p, step'. split; [exact Hstep|].
  change (name_of "SVC") with "SVC" in Hplot. rewrite Hplot. reflexivity.
Defined.

Lemma plot_returns_iff_witness :
  exists charts,
    featureSelectorResultsPlot (S := Insertion.stable) table2 usage_log "accuracy"
    = Ok charts /\
    map chart_estimator charts = ["LogisticRegression"; "SVC"].
Proof.
  destruct (@plot_returns_iff Insertion.stable table2 usage_log "accuracy"
              ltac:(vm_compute; discriminate)) as (Hiff & Hnames & _).
  destruct (proj2 Hiff) as [charts E].
  { intros e [<-|[<-|[]]]; vm_compute; discriminate. }
  exists charts. split; [exact E|]. rewrite (Hnames charts E). reflexivity.
Defined.

Lemma tables_of_a_sweep_witness :
  (exists df,
     featuresUsedSummary (S := Insertion.stable) table4
       (sweep_log name_of scores4 table4 ["accuracy"] 2 ["SVC"]) "accuracy" = Ok df) /\
  featuresUsedSummary (S := Insertion.stable) table4
    (sweep_log name_of scores4 table4 ["accuracy"] 2 ["SVC"]) "f1" = Raise IndexError.
Proof.
  split.
  - destruct (@tables_of_a_sweep Insertion.stable string name_of scores4 table4
                ["accuracy"] 2 ["SVC"] ltac:(lia) ltac:(vm_compute; discriminate)
                "accuracy") as [H _].
    apply H. now left.
  - destruct (@tables_of_a_sweep Insertion.stable string name_of scores4 table4
                ["accuracy"] 2 ["SVC"] ltac:(lia) ltac:(vm_compute; discriminate)
                "f1") as [_ H].
    apply H; [intros [E|[]]; discriminate | discriminate | discriminate].
Defined.

(** ** Ranks *)


(** ** The ranking methods on three features *)

Definition correlations (c : string) : Q :=
  if String.eqb c "A" then 1 # 2
  else if String.eqb c "B" then 9 # 10
  else if String.eqb c "C" then 1 # 10
  else 1.

Definition three_features : selector string :=
  {| columns := ["A"; "B"; "C"];
     target_name := "y";
     estimators := ["SVC"];
     rank := true;
     classification := true |}.



End Cases.
